(** * Naming-convention validator for JSON-LD taxonomies

    A shallow embedding of [.github/workflows/scripts/validate_taxonomy.py]
    and the properties of its two classes, [JSONLDParser] and
    [TaxonomyValidator].

    Conventions of the embedding:
    - a Python [str] is a [string]; the separators the program looks for
      (['/'], ['#'], the newline) and the characters its regular expressions
      accept are all ASCII, so splitting and matching on the UTF-8 bytes of a
      text agree with splitting and matching on its code points;
    - a value produced by [json.loads] is a [json] tree; a [dict] keeps its
      items in insertion order, so it is an association list;
    - a set of strings ([seen_uris]) is a [gset string];
    - [self.errors] is threaded as state, and the exceptions that the
      dynamically typed operations can raise are explicit outcomes;
    - [json.loads] itself belongs to the Python library, not to the program:
      it is a parameter of the development. *)

From Stdlib Require Import Ascii String.
From stdpp Require Import gmap strings list pretty.

Set Warnings "-register-all,-clear-no-such-hyp".

(** ** Python strings *)

Module PyStr.

Definition newline : ascii := "010"%char.

(** [s.split(sep)] for a one-character separator: never empty. *)
Fixpoint split (sep : ascii) (s : string) : list string :=
  match s with
  | EmptyString => [EmptyString]
  | String c r =>
      if Ascii.eqb c sep then EmptyString :: split sep r
      else match split sep r with
           | [] => [String c EmptyString]
           | h :: t => String c h :: t
           end
  end.

(** [l[-1]] on a list of strings known to be non-empty. *)
Definition last_item (l : list string) : string := List.last l EmptyString.

(** [s.startswith(p)], returning what follows the prefix. *)
Fixpoint strip_prefix (p s : string) : option string :=
  match p, s with
  | EmptyString, _ => Some s
  | String a p', String b s' => if Ascii.eqb a b then strip_prefix p' s' else None
  | String _ _, EmptyString => None
  end.

(** [needle in s] on two strings: substring search. *)
Fixpoint contains (needle s : string) : bool :=
  match strip_prefix needle s with
  | Some _ => true
  | None => match s with
            | EmptyString => false
            | String _ r => contains needle r
            end
  end.

(** [c in s] for a single character [c]. *)
Fixpoint has_char (c : ascii) (s : string) : bool :=
  match s with
  | EmptyString => false
  | String a r => Ascii.eqb a c || has_char c r
  end.

(** [enumerate(l, start)]. *)
Fixpoint enumerate {A} (l : list A) (start : nat) : list (nat * A) :=
  match l with
  | [] => []
  | x :: r => (start, x) :: enumerate r (S start)
  end.

End PyStr.

(** ** The fragment of [re] used by the naming patterns *)

Module Re.

Definition in_range (lo hi c : ascii) : bool :=
  (Ascii.leb lo c && Ascii.leb c hi)%bool.

Definition lower (c : ascii) : bool := in_range "a" "z" c.
Definition upper (c : ascii) : bool := in_range "A" "Z" c.
Definition digit (c : ascii) : bool := in_range "0" "9" c.
(** [[a-zA-Z]] and [[a-zA-Z0-9]]. *)
Definition letter (c : ascii) : bool := lower c || upper c.
Definition alnum (c : ascii) : bool := lower c || upper c || digit c.

Inductive regex : Type :=
| Lit (s : string)              (* literal text *)
| Class (p : ascii -> bool)     (* one character of a class *)
| Opt (r : regex)               (* (?:r)? , greedy *)
| Star (p : ascii -> bool)      (* [class]* , greedy *)
| Dollar                        (* $ *)
| Seq (r1 r2 : regex).

(** [$] without [re.MULTILINE]: the end of the text, or just before a
    newline that is the last character of the text. *)
Definition at_end (s : string) : bool :=
  match s with
  | EmptyString => true
  | String c EmptyString => Ascii.eqb c PyStr.newline
  | String _ (String _ _) => false
  end.

(** Backtracking matcher: [k] is what remains to be matched after [r]. *)
Fixpoint run (r : regex) (k : string -> bool) (s : string) : bool :=
  match r with
  | Lit l => match PyStr.strip_prefix l s with
             | Some rest => k rest
             | None => false
             end
  | Class p => match s with
               | String c rest => p c && k rest
               | EmptyString => false
               end
  | Opt r' => run r' k s || k s
  | Star p =>
      (fix star (s : string) : bool :=
         match s with
         | String c rest => (p c && star rest) || k s
         | EmptyString => k s
         end) s
  | Dollar => at_end s && k s
  | Seq r1 r2 => run r1 (run r2 k) s
  end.

(** [re.match(pattern, s) is not None]: the match starts at position 0,
    which is also where the leading [^] of the patterns holds, and may stop
    anywhere. *)
Definition matches (pattern : regex) (s : string) : bool :=
  run pattern (fun _ => true) s.

End Re.

(** ** [class NamingPattern(Enum)] *)

Inductive NamingPattern : Type := ALPHANUM | PASCAL | CAMEL.

(** [^(?:dfc-m:)?[X][a-zA-Z0-9]*$] for a first-character class [X]. *)
Definition prefixed_name (first : ascii -> bool) : Re.regex :=
  Re.Seq (Re.Opt (Re.Lit "dfc-m:"))
    (Re.Seq (Re.Class first) (Re.Seq (Re.Star Re.alnum) Re.Dollar)).

Definition pattern (p : NamingPattern) : Re.regex :=
  match p with
  | ALPHANUM => prefixed_name Re.letter
  | PASCAL => prefixed_name Re.upper
  | CAMEL => prefixed_name Re.lower
  end.

Definition message (p : NamingPattern) : string :=
  match p with
  | ALPHANUM => "Must be alphanumeric starting with a letter"
  | PASCAL => "Concepts must use PascalCase"
  | CAMEL => "Properties must use camelCase"
  end.

(** ** [@dataclass ValidationError] *)

Record ValidationError : Type := mkValidationError {
  ve_message : string;
  ve_identifier : string;
  ve_line : nat
}.

(** ** Values produced by [json.loads] *)

Inductive json : Type :=
| JNull                               (* None *)
| JBool (b : bool)
| JInt (n : Z)
| JFloat (literal : string)           (* a float, kept as its literal *)
| JStr (s : string)
| JList (items : list json)
| JDict (items : list (string * json)).

(** The exceptions that the operations of the program can raise on such
    values, and the outcome of an operation. *)
Inductive exn : Type := AttributeError | TypeError | KeyError.

Inductive outcome (A : Type) : Type :=
| Ok (a : A)
| Raise (e : exn).
Arguments Ok {A} a.
Arguments Raise {A} e.

Module Py.

(** [d.get(key)] on the items of a [dict]: [None] when the key is absent. *)
Fixpoint dict_get (items : list (string * json)) (key : string) : option json :=
  match items with
  | [] => None
  | (k, v) :: r => if String.eqb k key then Some v else dict_get r key
  end.

(** [key in d] on the items of a [dict]. *)
Definition dict_has (items : list (string * json)) (key : string) : bool :=
  match dict_get items key with Some _ => true | None => false end.

(** [v == s] for a string [s]: only an equal string is equal to it. *)
Definition eq_str (v : json) (s : string) : bool :=
  match v with
  | JStr t => String.eqb t s
  | _ => false
  end.

(** [s in v] for a string [s] and an arbitrary value [v]. *)
Definition contains (s : string) (v : json) : outcome bool :=
  match v with
  | JStr t => Ok (PyStr.contains s t)
  | JList l => Ok (existsb (fun x => eq_str x s) l)
  | JDict items => Ok (dict_has items s)
  | JNull | JBool _ | JInt _ | JFloat _ => Raise TypeError
  end.

(** [v[key]] for a string [key]. *)
Definition getitem (v : json) (key : string) : outcome json :=
  match v with
  | JDict items => match dict_get items key with
                   | Some x => Ok x
                   | None => Raise KeyError
                   end
  | _ => Raise TypeError
  end.

(** The characters of a string, each as a string of length one. *)
Fixpoint chars (s : string) : list json :=
  match s with
  | EmptyString => []
  | String c r => JStr (String c EmptyString) :: chars r
  end.

(** [iter(v)]: what a [for] over [v] visits. *)
Definition iter (v : json) : outcome (list json) :=
  match v with
  | JList l => Ok l
  | JDict items => Ok (map (fun kv => JStr (fst kv)) items)
  | JStr s => Ok (chars s)
  | JNull | JBool _ | JInt _ | JFloat _ => Raise TypeError
  end.

End Py.

(** ** [class JSONLDParser] *)

(** [json.JSONDecodeError]: the fields the program reads. *)
Record JSONDecodeError : Type := mkJSONDecodeError {
  msg : string;
  lineno : nat
}.

Module JSONLDParser.

Record t : Type := mk {
  content : string;
  id_lines : list (nat * string);
  data : json
}.

(** The five characters of the key as it is serialised, quotes included. *)
Definition quote : ascii := "034"%char.
Definition marker : string := String quote ("@id" +:+ String quote EmptyString).

Definition _map_ids_to_lines (content : string) : list (nat * string) :=
  List.filter (fun nl => PyStr.contains marker (snd nl))
    (PyStr.enumerate (PyStr.split PyStr.newline content) 1).

(** [next((node for node in nodes if node.get('@id') == uri), {})]: the
    nodes are visited lazily, up to the first match. *)
Fixpoint first_node (nodes : list json) (uri : string)
  : outcome (list (string * json)) :=
  match nodes with
  | [] => Ok []
  | node :: rest =>
      match node with
      | JDict items =>
          match Py.dict_get items "@id" with
          | Some v => if Py.eq_str v uri then Ok items else first_node rest uri
          | None => first_node rest uri
          end
      | _ => Raise AttributeError
      end
  end.

Definition get_node (self : t) (uri : string) : outcome (list (string * json)) :=
  match Py.contains "@graph" (data self) with
  | Raise e => Raise e
  | Ok false => Ok []
  | Ok true =>
      match Py.getitem (data self) "@graph" with
      | Raise e => Raise e
      | Ok graph =>
          match Py.iter graph with
          | Raise e => Raise e
          | Ok nodes => first_node nodes uri
          end
      end
  end.

(** [next((num for num, line in self.id_lines.items() if uri in line), 0)] *)
Fixpoint first_line (lines : list (nat * string)) (uri : string) : nat :=
  match lines with
  | [] => 0
  | (num, line) :: rest =>
      if PyStr.contains uri line then num else first_line rest uri
  end.

Definition get_line_number (self : t) (uri : string) : nat :=
  first_line (id_lines self) uri.

End JSONLDParser.

(** ** The state of a [TaxonomyValidator]: [self.errors] *)

Module Run.

(** A computation reads and extends [self.errors] and either returns or
    raises; the errors recorded before an exception stay recorded. *)
Definition M (A : Type) : Type :=
  list ValidationError -> outcome A * list ValidationError.

Definition ret {A} (a : A) : M A := fun errors => (Ok a, errors).

Definition bind {A B} (m : M A) (f : A -> M B) : M B :=
  fun errors =>
    match m errors with
    | (Ok a, errors') => f a errors'
    | (Raise e, errors') => (Raise e, errors')
    end.

Definition lift {A} (o : outcome A) : M A := fun errors => (o, errors).

(** [self.errors.append(e)] *)
Definition append_error (e : ValidationError) : M unit :=
  fun errors => (Ok tt, errors ++ [e]).

End Run.

Notation "'do' x <- m ; k" := (Run.bind m (fun x => k))
  (at level 10, x name, m at level 100, k at level 200).
Notation "'exec' m ; k" := (Run.bind m (fun _ => k))
  (at level 10, m at level 100, k at level 200).

(** ** [class TaxonomyValidator] *)

Module TaxonomyValidator.

Definition _get_identifier (uri : string) : string :=
  if PyStr.has_char "#" (PyStr.last_item (PyStr.split "/" uri))
  then PyStr.last_item (PyStr.split "#" (PyStr.last_item (PyStr.split "/" uri)))
  else EmptyString.

Fixpoint _extract_uris (data : json) : list json :=
  match data with
  | JDict items =>
      (match Py.dict_get items "@id" with
       | Some v => [v]
       | None => []
       end)
      ++ (fix values (items : list (string * json)) : list json :=
            match items with
            | [] => []
            | (_, value) :: rest =>
                (match value with
                 | JDict _ | JList _ => _extract_uris value
                 | _ => []
                 end) ++ values rest
            end) items
  | JList l =>
      (fix each (l : list json) : list json :=
         match l with
         | [] => []
         | item :: rest => _extract_uris item ++ each rest
         end) l
  | _ => []
  end.

(** ['skos:Concept' in node.get('@type', [])] *)
Definition is_concept (node : list (string * json)) : outcome bool :=
  match Py.dict_get node "@type" with
  | Some types => Py.contains "skos:Concept" types
  | None => Ok false
  end.

Definition _validate_naming_patterns (parser : JSONLDParser.t)
    (uri identifier : string) : Run.M bool :=
  do node <- Run.lift (JSONLDParser.get_node parser uri);
  let line := JSONLDParser.get_line_number parser uri in
  if negb (Re.matches (pattern ALPHANUM) identifier) then
    exec Run.append_error (mkValidationError (message ALPHANUM) identifier line);
    Run.ret false
  else
    do concept <- Run.lift (is_concept node);
    if concept && negb (Re.matches (pattern PASCAL) identifier) then
      exec Run.append_error (mkValidationError (message PASCAL) identifier line);
      Run.ret false
    else Run.ret true.

(** The body of the [for] loop of [_validate_uris], over what remains of
    the list of extracted values. [uri.split] exists on strings only. *)
Fixpoint loop (parser : JSONLDParser.t) (uris : list json)
    (seen_uris : gset string) (is_valid : bool) : Run.M bool :=
  match uris with
  | [] => Run.ret is_valid
  | JStr uri :: rest =>
      let identifier := _get_identifier uri in
      if String.eqb identifier EmptyString || bool_decide (identifier ∈ seen_uris)
      then loop parser rest seen_uris is_valid
      else
        do ok <- _validate_naming_patterns parser uri identifier;
        loop parser rest ({[identifier]} ∪ seen_uris)
          (if ok then is_valid else false)
  | _ :: _ => Run.lift (Raise AttributeError)
  end.

Definition _validate_uris (parser : JSONLDParser.t) : Run.M bool :=
  loop parser (_extract_uris (JSONLDParser.data parser)) ∅ true.

Section Validate.

(** [json.loads], from the Python library: the parsed value, or the
    [JSONDecodeError] it raises. *)
Variable json_loads : string -> JSONDecodeError + json.

(** [JSONLDParser(content)]: the line index is built first, then the
    text is parsed. *)
Definition new_parser (content : string) : JSONDecodeError + JSONLDParser.t :=
  let id_lines := JSONLDParser._map_ids_to_lines content in
  match json_loads content with
  | inl e => inl e
  | inr data => inr (JSONLDParser.mk content id_lines data)
  end.

(** [validate], on the text read from the file; [self.errors] starts
    empty in a fresh validator. *)
Definition validate (content : string) : Run.M bool :=
  match new_parser content with
  | inr parser => _validate_uris parser
  | inl e =>
      exec Run.append_error
        (mkValidationError ("Invalid JSON: " +:+ msg e) EmptyString (lineno e));
      Run.ret false
  end.

End Validate.

End TaxonomyValidator.


Import TaxonomyValidator.

(** ** [main] *)

(** How a run of the program ends: [sys.exit(status)], an exception of the
    validator that nothing catches, or a failure to open or read the
    file. *)
Inductive termination : Type :=
| Exit (status : nat)
| Uncaught (e : exn)
| FileError.

Definition tab : ascii := "009"%char.

(** The line printed for one recorded error. *)
Definition format_error (error : ValidationError) : string :=
  let message :=
    "    [L" +:+ pretty (ve_line error) +:+ "]" +:+ String tab (ve_message error) in
  if String.eqb (ve_identifier error) EmptyString then message
  else message +:+ " (in '" +:+ ve_identifier error +:+ "')".

Definition usage_line : string :=
  "Usage: python validate_taxonomy.py <json_ld_file>".

Definition pass_line (name : string) : string :=
  String PyStr.newline ("✨ PASS " +:+ name +:+ " is valid!").

Definition fail_line (issues : nat) (name : string) : string :=
  String PyStr.newline ("❌ FAIL Found " +:+ pretty issues +:+ " issues in " +:+ name
                        +:+ String ":" (String PyStr.newline EmptyString)).

Section Main.

(** [json.loads]; [open(path).read()], which gives no text when the file
    cannot be opened or read; and [Path(path).name]. *)
Variable json_loads : string → JSONDecodeError + json.
Variable read_file : string → option string.
Variable path_name : string → string.

(** [main], on [sys.argv]: the texts given to [print], in order, and the
    way the program ends. *)
Definition main (argv : list string) : list string * termination :=
  match argv with
  | [_; file_path] =>
      match read_file file_path with
      | None => ([], FileError)
      | Some content =>
          match validate json_loads content [] with
          | (Ok true, _) => ([pass_line (path_name file_path)], Exit 0)
          | (Ok false, errors) =>
              (fail_line (length errors) (path_name file_path)
                 :: map format_error errors, Exit 1)
          | (Raise e, _) => ([], Uncaught e)
          end
      end
  | _ => ([usage_line], Exit 1)
  end.

End Main.

(** ** Vocabulary of the specification *)

(** [needle] occurs in [s] as a substring. *)
Definition is_substring (needle s : string) : Prop :=
  ∃ p q, s = p +:+ needle +:+ q.

(** [r] is the text of [s] after its last [c]: [r] holds no [c] and is what
    follows a [c] of [s]; the whole of [s] when [s] holds no [c]. *)
Definition after_last (c : ascii) (s r : string) : Prop :=
  PyStr.has_char c r = false ∧ (s = r ∨ ∃ p, s = p +:+ String c r).

(** [sep.join(l)], the inverse of [split]. *)
Fixpoint join (sep : ascii) (l : list string) : string :=
  match l with
  | [] => EmptyString
  | [x] => x
  | x :: r => x +:+ String sep (join sep r)
  end.

(** ** The patterns and the loop, restated for the proofs *)

(** What [[a-zA-Z0-9]*$] accepts: letters and digits up to the end of the
    text, or up to a newline that ends it. *)
Fixpoint name_tail (s : string) : bool :=
  match s with
  | EmptyString => true
  | String c r => (Re.alnum c && name_tail r) || Re.at_end s
  end.

(** What [[X][a-zA-Z0-9]*$] accepts. *)
Definition name_body (first : ascii → bool) (s : string) : bool :=
  match s with
  | EmptyString => false
  | String c r => first c && name_tail r
  end.

(** The local name as the specification words it: the text after the last
    ['/'], and, when that segment holds a ['#'], the text after its last
    ['#']. *)
Definition LocalName_spec (uri name : string) : Prop :=
  ∃ segment, after_last "/" uri segment ∧
    if PyStr.has_char "#" segment then after_last "#" segment name
    else name = segment.

(** Line [num] of [content], counted from 1, holds the marker of an
    identifier declaration and holds [uri]. *)
Definition declares (content uri : string) (num : nat) : Prop :=
  ∃ k line, num = S k ∧ PyStr.split PyStr.newline content !! k = Some line ∧
    is_substring JSONLDParser.marker line ∧ is_substring uri line.

(** What the two rules find for [identifier], reached through [uri]: the
    violation to record, if any. *)
Definition verdict (parser : JSONLDParser.t) (uri identifier : string)
  : outcome (option ValidationError) :=
  match JSONLDParser.get_node parser uri with
  | Raise e => Raise e
  | Ok node =>
      let line := JSONLDParser.get_line_number parser uri in
      if negb (Re.matches (pattern ALPHANUM) identifier)
      then Ok (Some (mkValidationError (message ALPHANUM) identifier line))
      else match is_concept node with
           | Raise e => Raise e
           | Ok concept =>
               if concept && negb (Re.matches (pattern PASCAL) identifier)
               then Ok (Some (mkValidationError (message PASCAL) identifier line))
               else Ok None
           end
  end.

(** The identifiers that the loop submits to the rules, each with its local
    name, in order: those met before any value that is not a string, whose
    local name is not empty and was not met before. *)
Fixpoint evaluated (uris : list json) (seen : gset string) : list (string * string) :=
  match uris with
  | JStr uri :: rest =>
      let identifier := _get_identifier uri in
      if String.eqb identifier EmptyString || bool_decide (identifier ∈ seen)
      then evaluated rest seen
      else (uri, identifier) :: evaluated rest ({[identifier]} ∪ seen)
  | _ => []
  end.

(** The rules applied to a list of identifiers and local names. *)
Fixpoint check_all (parser : JSONLDParser.t) (pairs : list (string * string))
    (is_valid : bool) : Run.M bool :=
  match pairs with
  | [] => Run.ret is_valid
  | (uri, identifier) :: rest =>
      do ok <- _validate_naming_patterns parser uri identifier;
      check_all parser rest (if ok then is_valid else false)
  end.

(** The violations of a list of identifiers and local names. *)
Definition violations (parser : JSONLDParser.t) (pairs : list (string * string))
  : list ValidationError :=
  flat_map (λ p, match verdict parser p.1 p.2 with
                 | Ok (Some e) => [e]
                 | _ => []
                 end) pairs.

Definition is_str (v : json) : bool :=
  match v with JStr _ => true | _ => false end.

Definition is_dict (v : json) : bool :=
  match v with JDict _ => true | _ => false end.

(** The violations recorded for the local name [name]. *)
Definition mentioning (name : string) (errors : list ValidationError)
  : list ValidationError :=
  List.filter (λ e, String.eqb (ve_identifier e) name) errors.

(** The first of [uris] whose local name is [name]. *)
Definition first_yielding (name : string) (uris : list json) : option json :=
  List.find (λ v, match v with
                  | JStr uri => String.eqb (_get_identifier uri) name
                  | _ => false
                  end) uris.

(** ** Documents of the scenarios *)

(** [s] between double quotes. *)
Definition quoted (s : string) : string :=
  String JSONLDParser.quote (s +:+ String JSONLDParser.quote EmptyString).

(** The text [{"@graph":[{"@id":"<id>"}]}] and its parsed value. *)
Definition untyped_text (id : string) : string :=
  "{" +:+ quoted "@graph" +:+ ":[{" +:+ quoted "@id" +:+ ":" +:+ quoted id +:+ "}]}".

Definition untyped_doc (id : string) : json :=
  JDict [("@graph", JList [JDict [("@id", JStr id)]])].

(** The text [{"@graph":[{"@id":"<id>","@type":<type>}]}], for the text
    [type_text] of a value [type], and its parsed value. *)
Definition typed_text (id type_text : string) : string :=
  "{" +:+ quoted "@graph" +:+ ":[{" +:+ quoted "@id" +:+ ":" +:+ quoted id +:+ ","
  +:+ quoted "@type" +:+ ":" +:+ type_text +:+ "}]}".

Definition typed_doc (id : string) (type : json) : json :=
  JDict [("@graph", JList [JDict [("@id", JStr id); ("@type", type)]])].

Definition concept_text (id : string) : string :=
  typed_text id ("[" +:+ quoted "skos:Concept" +:+ "]").

Definition concept_doc (id : string) : json :=
  typed_doc id (JList [JStr "skos:Concept"]).

(** A [json.loads] that knows one text: it parses [text] to [doc], and
    rejects any other text at its first line. *)
Definition loads_of (text : string) (doc : json) : string → JSONDecodeError + json :=
  λ content,
    if String.eqb content text then inr doc
    else inl (mkJSONDecodeError "Expecting value" 1).

(** A recorded error is a naming violation when it bears the message of a
    naming pattern. *)
Definition is_naming_violation (e : ValidationError) : bool :=
  existsb (λ p, String.eqb (ve_message e) (message p)) [ALPHANUM; PASCAL; CAMEL].

Definition naming_violations (errors : list ValidationError) : list ValidationError :=
  List.filter is_naming_violation errors.

Definition parser_of (text : string) (doc : json) : JSONLDParser.t :=
  JSONLDParser.mk text (JSONLDParser._map_ids_to_lines text) doc.

(** The text [{"@graph":[{"@id":"<id1>","@type":<type>},{"@id":"<id2>"}]}]
    and its parsed value. *)
Definition two_nodes_text (id1 type_text id2 : string) : string :=
  "{" +:+ quoted "@graph" +:+ ":[{" +:+ quoted "@id" +:+ ":" +:+ quoted id1 +:+ ","
  +:+ quoted "@type" +:+ ":" +:+ type_text +:+ "},{" +:+ quoted "@id" +:+ ":"
  +:+ quoted id2 +:+ "}]}".

Definition two_nodes_doc (id1 : string) (type : json) (id2 : string) : json :=
  JDict [("@graph", JList [JDict [("@id", JStr id1); ("@type", type)];
                           JDict [("@id", JStr id2)]])].

(** The text [{"@graph":[{"@id":"<id1>"},{"@id":"<id2>"}]}] parsed. *)
Definition pair_doc (id1 id2 : string) : json :=
  JDict [("@graph", JList [JDict [("@id", JStr id1)]; JDict [("@id", JStr id2)]])].

(** The text [{"@graph":[{"@id":"<id1>"},{"@id":"<id2>"}]}]. *)
Definition pair_text (id1 id2 : string) : string :=
  "{" +:+ quoted "@graph" +:+ ":[{" +:+ quoted "@id" +:+ ":" +:+ quoted id1
  +:+ "},{" +:+ quoted "@id" +:+ ":" +:+ quoted id2 +:+ "}]}".

(** ** Conditions on a parsed document *)

(** Every value of an [@id] key, in any mapping of the document, is a
    string: [_extract_uris] lists these values. *)
Definition ids_are_strings (data : json) : bool :=
  forallb is_str (_extract_uris data).

(** The value of the [@graph] key of the document, when it is a mapping
    that has one. *)
Definition graph_of (data : json) : option json :=
  match data with
  | JDict items => Py.dict_get items "@graph"
  | _ => None
  end.

(** Every element of the top-level [@graph] sequence is a mapping. *)
Definition graph_nodes_are_mappings (data : json) : bool :=
  match graph_of data with
  | Some (JList nodes) => forallb is_dict nodes
  | _ => true
  end.

(** The document is a mapping whose [@graph], when it has one, is a
    sequence; or a sequence that does not hold the string [@graph]; or a
    scalar. *)
Definition graph_is_sequence (data : json) : bool :=
  match data with
  | JDict items =>
      match Py.dict_get items "@graph" with
      | None | Some (JList _) => true
      | Some _ => false
      end
  | JList l => negb (existsb (λ x, Py.eq_str x "@graph") l)
  | _ => true
  end.

(** The [@type] of a node, when it has one, is a string, a sequence or a
    mapping. *)
Definition type_is_container (node : json) : bool :=
  match node with
  | JDict items =>
      match Py.dict_get items "@type" with
      | None | Some (JStr _) | Some (JList _) | Some (JDict _) => true
      | Some _ => false
      end
  | _ => true
  end.

Definition types_are_containers (data : json) : bool :=
  match graph_of data with
  | Some (JList nodes) => forallb type_is_container nodes
  | _ => true
  end.

(** The texts [{"@graph":5,"x":{"@id":"ex#a"}}] and
    [["@graph",{"@id":"ex#a"}]], and their parsed values. *)
Definition scalar_graph_text : string :=
  "{" +:+ quoted "@graph" +:+ ":5," +:+ quoted "x" +:+ ":{" +:+ quoted "@id" +:+ ":"
  +:+ quoted "ex#a" +:+ "}}".

Definition scalar_graph_doc : json :=
  JDict [("@graph", JInt 5); ("x", JDict [("@id", JStr "ex#a")])].

Definition top_list_text : string :=
  "[" +:+ quoted "@graph" +:+ ",{" +:+ quoted "@id" +:+ ":" +:+ quoted "ex#a" +:+ "}]".

Definition top_list_doc : json :=
  JList [JStr "@graph"; JDict [("@id", JStr "ex#a")]].

(** The texts [{"@graph":[{"@id":7}]}] and
    [{"@graph":[7,{"@id":"ex#a"}]}], and their parsed values. *)
Definition number_id_text : string :=
  "{" +:+ quoted "@graph" +:+ ":[{" +:+ quoted "@id" +:+ ":7}]}".

Definition number_id_doc : json :=
  JDict [("@graph", JList [JDict [("@id", JInt 7)]])].

Definition number_node_text : string :=
  "{" +:+ quoted "@graph" +:+ ":[7,{" +:+ quoted "@id" +:+ ":" +:+ quoted "ex#a" +:+ "}]}".

Definition number_node_doc : json :=
  JDict [("@graph", JList [JInt 7; JDict [("@id", JStr "ex#a")]])].

(** ** The language of the naming patterns *)

(** The class of the first character of a name, for each pattern. *)
Definition first_class (p : NamingPattern) : ascii → bool :=
  match p with
  | ALPHANUM => Re.letter
  | PASCAL => Re.upper
  | CAMEL => Re.lower
  end.

(** The texts a pattern is meant for: an optional prefix [dfc-m:], one
    character of the class [first], letters and digits, and an optional
    final newline. *)
Definition accepted (first : ascii → bool) (s : string) : Prop :=
  ∃ pre c body nl,
    s = pre +:+ String c (body +:+ nl) ∧
    (pre = EmptyString ∨ pre = "dfc-m:") ∧
    first c = true ∧
    (∀ x, PyStr.has_char x body = true → Re.alnum x = true) ∧
    (nl = EmptyString ∨ nl = String PyStr.newline EmptyString).

(** ** Nodes of the graph *)

(** A mapping whose [@id] is not [uri]. *)
Definition other_node (uri : string) (n : json) : Prop :=
  ∃ items, n = JDict items ∧ Py.dict_get items "@id" ≠ Some (JStr uri).

(** ** Names and mappings of a document *)

(** The local names of the strings of a list of values, in order. *)
Definition local_names (uris : list json) : list string :=
  flat_map (λ v, match v with
                 | JStr uri => [_get_identifier uri]
                 | _ => []
                 end) uris.

(** [m] is a mapping of the document: the document itself, or a mapping
    found in a value of a mapping or in an item of a sequence. *)
Inductive mapping_in : json → list (string * json) → Prop :=
| mapping_here items : mapping_in (JDict items) items
| mapping_value items k v m :
    (k, v) ∈ items → mapping_in v m → mapping_in (JDict items) m
| mapping_item l x m :
    x ∈ l → mapping_in x m → mapping_in (JList l) m.

(** ** Facts on strings *)

#[local] Arguments String.append !_ _ / : simpl nomatch.

Lemma append_nil_r (s : string) : s +:+ EmptyString = s.
Proof. induction s as [|c s IH]; simpl; [done | by rewrite IH]. Qed.

Lemma append_assoc (a b c : string) : (a +:+ b) +:+ c = a +:+ (b +:+ c).
Proof. induction a as [|x a IH]; simpl; [done | by rewrite IH]. Qed.

Lemma has_char_app (c : ascii) (a b : string) :
  PyStr.has_char c (a +:+ b) = PyStr.has_char c a || PyStr.has_char c b.
Proof.
  induction a as [|x a IH]; simpl; [done |].
  rewrite IH. by destruct (Ascii.eqb x c).
Qed.

Lemma strip_prefix_Some (p s r : string) :
  PyStr.strip_prefix p s = Some r ↔ s = p +:+ r.
Proof.
  revert s. induction p as [|a p IH]; intros s; simpl.
  - split; congruence.
  - destruct s as [|b s]; [split; congruence |].
    destruct (Ascii.eqb_spec a b) as [->|Hne].
    + rewrite IH. split; congruence.
    + split; congruence.
Qed.

Lemma strip_prefix_app (p r : string) : PyStr.strip_prefix p (p +:+ r) = Some r.
Proof. by apply strip_prefix_Some. Qed.

Lemma contains_unfold (needle s : string) :
  PyStr.contains needle s =
  match PyStr.strip_prefix needle s with
  | Some _ => true
  | None => match s with
            | EmptyString => false
            | String _ r => PyStr.contains needle r
            end
  end.
Proof. by destruct s. Qed.

Lemma contains_spec (needle s : string) :
  PyStr.contains needle s = true ↔ is_substring needle s.
Proof.
  split.
  - induction s as [|c s IH]; rewrite contains_unfold;
      destruct (PyStr.strip_prefix needle _) as [r|] eqn:E; try done.
    + intros _. exists EmptyString, r. by apply strip_prefix_Some in E.
    + intros _. exists EmptyString, r. by apply strip_prefix_Some in E.
    + intros H. destruct (IH H) as (p & q & ->). by exists (String c p), q.
  - intros (p & q & ->). induction p as [|c p IH].
    + rewrite contains_unfold. simpl. by rewrite strip_prefix_app.
    + rewrite contains_unfold.
      by destruct (PyStr.strip_prefix needle _).
Qed.

Lemma contains_false (needle s : string) :
  PyStr.contains needle s = false ↔ ¬ is_substring needle s.
Proof.
  rewrite <- contains_spec. by destruct (PyStr.contains needle s).
Qed.

Lemma split_not_nil (c : ascii) (s : string) : PyStr.split c s ≠ [].
Proof.
  destruct s as [|a s]; simpl; [done |].
  destruct (Ascii.eqb a c); [done |]. by destruct (PyStr.split c s).
Qed.

Lemma join_cons (c : ascii) (x : string) (l : list string) :
  l ≠ [] → join c (x :: l) = x +:+ String c (join c l).
Proof. by destruct l. Qed.

(** Splitting loses nothing: joining the pieces gives the text back. *)
Lemma join_split (c : ascii) (s : string) : join c (PyStr.split c s) = s.
Proof.
  induction s as [|a s IH]; simpl; [done |].
  destruct (Ascii.eqb_spec a c) as [->|Hne].
  - rewrite join_cons by apply split_not_nil. simpl. by rewrite IH.
  - pose proof (split_not_nil c s) as Hnil.
    destruct (PyStr.split c s) as [|h t]; [done |].
    destruct t as [|h' t]; simpl in *; by rewrite <- IH.
Qed.

(** No piece of a split holds the separator. *)
Lemma split_no_sep (c : ascii) (s : string) :
  Forall (λ x, PyStr.has_char c x = false) (PyStr.split c s).
Proof.
  induction s as [|a s IH]; simpl.
  - by constructor.
  - destruct (Ascii.eqb_spec a c) as [->|Hne].
    + by constructor.
    + pose proof (split_not_nil c s) as Hnil.
      destruct (PyStr.split c s) as [|h t]; [done |].
      inversion IH as [|? ? Hh Ht]; subst. constructor; [|done].
      simpl. rewrite Hh. by destruct (Ascii.eqb_spec a c).
Qed.

Lemma after_last_join (c : ascii) (l : list string) :
  l ≠ [] → Forall (λ x, PyStr.has_char c x = false) l →
  after_last c (join c l) (PyStr.last_item l).
Proof.
  unfold PyStr.last_item.
  induction l as [|x l IH]; [done |]. intros _ Hall.
  inversion Hall as [|? ? Hx Hl]; subst.
  destruct l as [|y l].
  - split; [done | by left].
  - destruct IH as [Hr Hs]; [done | done |].
    rewrite join_cons by done.
    change (List.last (x :: y :: l) EmptyString) with (List.last (y :: l) EmptyString).
    split; [done |]. right. destruct Hs as [-> | [p ->]].
    + by exists x.
    + exists (x +:+ String c p). by rewrite append_assoc.
Qed.

(** [s.split(c)[-1]] is the text after the last [c] of [s]. *)
Lemma last_split_after_last (c : ascii) (s : string) :
  after_last c s (PyStr.last_item (PyStr.split c s)).
Proof.
  rewrite <- (join_split c s) at 1.
  apply after_last_join; [apply split_not_nil | apply split_no_sep].
Qed.

(** The text after the last [c] is unique. *)
Lemma after_last_unique (c : ascii) (s r1 r2 : string) :
  after_last c s r1 → after_last c s r2 → r1 = r2.
Proof.
  revert r1 r2.
  assert (∀ p r, PyStr.has_char c (p +:+ String c r) = true) as Hin.
  { intros p r. rewrite has_char_app. simpl. rewrite Ascii.eqb_refl.
    by destruct (PyStr.has_char c p). }
  assert (∀ p1 p2 r1 r2, PyStr.has_char c r1 = false → PyStr.has_char c r2 = false →
            p1 +:+ String c r1 = p2 +:+ String c r2 → r1 = r2) as Hsame.
  { induction p1 as [|a p1 IH]; intros p2 r1 r2 H1 H2 E.
    - destruct p2 as [|b p2]; simpl in E; [congruence |].
      injection E as -> ->. by rewrite Hin in H1.
    - destruct p2 as [|b p2]; simpl in E.
      + injection E as -> <-. by rewrite Hin in H2.
      + injection E as -> E. by eapply IH. }
  intros r1 r2 [H1 [->|[p1 ->]]] [H2 [E|[p2 E]]]; subst.
  - done.
  - by rewrite Hin in H1.
  - by rewrite Hin in H2.
  - by eapply Hsame.
Qed.

(** ** Facts on the naming patterns *)

Lemma star_alnum_dollar (s : string) :
  Re.run (Re.Seq (Re.Star Re.alnum) Re.Dollar) (λ _, true) s = name_tail s.
Proof.
  induction s as [|c s IH]; [done |].
  simpl in *. rewrite IH. by rewrite !andb_true_r.
Qed.

(** The three patterns accept a name body, after the prefix [dfc-m:] or
    without it. *)
Lemma matches_prefixed_name (first : ascii → bool) (s : string) :
  Re.matches (prefixed_name first) s =
  match PyStr.strip_prefix "dfc-m:" s with
  | Some rest => name_body first rest || name_body first s
  | None => name_body first s
  end.
Proof.
  unfold Re.matches, prefixed_name.
  assert (∀ t, Re.run (Re.Seq (Re.Class first) (Re.Seq (Re.Star Re.alnum) Re.Dollar))
                 (λ _, true) t = name_body first t) as Hbody.
  { intros [|c t]; [done |].
    change (first c && Re.run (Re.Seq (Re.Star Re.alnum) Re.Dollar) (λ _, true) t
            = first c && name_tail t).
    by rewrite star_alnum_dollar. }
  set (body := Re.Seq (Re.Class first) (Re.Seq (Re.Star Re.alnum) Re.Dollar)) in *.
  change (Re.run (Re.Seq (Re.Opt (Re.Lit "dfc-m:")) body) (λ _, true) s)
    with (match PyStr.strip_prefix "dfc-m:" s with
          | Some rest => Re.run body (λ _, true) rest
          | None => false
          end || Re.run body (λ _, true) s).
  rewrite Hbody. destruct (PyStr.strip_prefix "dfc-m:" s); [by rewrite Hbody | done].
Qed.

(** ** The local name of an identifier *)

(** C1, as stated, fails: [_get_identifier] does not give the last segment
    of an identifier whose last segment holds no ['#']; for [ex:Invalid_Name]
    it gives the empty string. *)
Lemma get_identifier_not_last_segment :
  _get_identifier "ex:Invalid_Name" = EmptyString ∧
  ¬ LocalName_spec "ex:Invalid_Name" (_get_identifier "ex:Invalid_Name").
Proof.
  split; [reflexivity |].
  intros (segment & Hseg & H).
  assert (segment = "ex:Invalid_Name") as ->.
  { eapply after_last_unique; [exact Hseg |]. split; [reflexivity | by left]. }
  vm_compute in H. discriminate H.
Qed.

(** C1, amended: for every identifier, with [segment] the text after its last
    ['/'], [_get_identifier] returns the text after the last ['#'] of
    [segment] when [segment] holds a ['#'], and the empty string otherwise. *)
Theorem get_identifier_fragment (uri : string) :
  ∃ segment, after_last "/" uri segment ∧
    if PyStr.has_char "#" segment
    then after_last "#" segment (_get_identifier uri)
    else _get_identifier uri = EmptyString.
Proof.
  exists (PyStr.last_item (PyStr.split "/" uri)).
  split; [apply last_split_after_last |].
  unfold _get_identifier.
  destruct (PyStr.has_char "#" _); [apply last_split_after_last | done].
Qed.

(** ** The line index *)

Lemma first_line_enumerate (uri : string) (l : list string) (start : nat) :
  JSONLDParser.first_line
    (List.filter (λ nl, PyStr.contains JSONLDParser.marker (snd nl))
       (PyStr.enumerate l start)) uri =
  match list_find (λ line, PyStr.contains JSONLDParser.marker line = true ∧
                           PyStr.contains uri line = true) l with
  | Some (k, _) => start + k
  | None => 0
  end.
Proof.
  revert start. induction l as [|x l IH]; intros start; [done |].
  cbn [PyStr.enumerate List.filter list_find snd].
  destruct (PyStr.contains JSONLDParser.marker x) eqn:Hm.
  - cbn [JSONLDParser.first_line]. destruct (PyStr.contains uri x) eqn:Hu.
    + rewrite decide_True by done. simpl. lia.
    + rewrite decide_False by (intros [_ ?]; congruence). rewrite IH.
      destruct (list_find _ l) as [[k y]|]; simpl; [lia | done].
  - rewrite decide_False by (intros [? _]; congruence). rewrite IH.
    destruct (list_find _ l) as [[k y]|]; simpl; [lia | done].
Qed.

(** C7: for every text and identifier, [get_line_number] returns the least
    line number, counted from 1, of a line that holds the marker and holds
    the identifier as a substring, and returns 0 when there is no such
    line. *)
Theorem get_line_number_least (content uri : string) (data : json) :
  let parser :=
    JSONLDParser.mk content (JSONLDParser._map_ids_to_lines content) data in
  let n := JSONLDParser.get_line_number parser uri in
  (n = 0 ∧ ∀ m, ¬ declares content uri m) ∨
  (declares content uri n ∧ ∀ m, declares content uri m → n ≤ m).
Proof.
  intros parser n. subst parser n.
  unfold JSONLDParser.get_line_number, JSONLDParser._map_ids_to_lines.
  cbn [JSONLDParser.id_lines]. rewrite first_line_enumerate.
  destruct (list_find _ _) as [[k line]|] eqn:Hfind.
  - right. apply list_find_Some in Hfind as (Hk & [Hm Hu] & Hleast). split.
    + exists k, line. by rewrite <- !contains_spec.
    + intros m (j & line' & -> & Hj & Hm' & Hu').
      destruct (decide (j < k)) as [Hlt|]; [|lia].
      exfalso. apply (Hleast j line' Hj Hlt). by rewrite !contains_spec.
  - left. split; [done |]. intros m (j & line' & -> & Hj & Hm' & Hu').
    rewrite list_find_None in Hfind. rewrite Forall_lookup in Hfind.
    apply (Hfind j line' Hj). by rewrite !contains_spec.
Qed.

(** ** The loop of [_validate_uris], rule by rule *)

Lemma validate_naming_patterns_verdict parser uri identifier errors :
  _validate_naming_patterns parser uri identifier errors =
  match verdict parser uri identifier with
  | Raise e => (Raise e, errors)
  | Ok None => (Ok true, errors)
  | Ok (Some v) => (Ok false, errors ++ [v])
  end.
Proof.
  unfold _validate_naming_patterns, verdict, Run.bind, Run.lift.
  destruct (JSONLDParser.get_node parser uri) as [node|e]; [|done].
  destruct (negb (Re.matches (pattern ALPHANUM) identifier)); [done |].
  destruct (is_concept node) as [concept|e]; [|done].
  by destruct (concept && negb (Re.matches (pattern PASCAL) identifier)).
Qed.

(** A violation bears the local name it was found for. *)
Lemma verdict_identifier parser uri identifier e :
  verdict parser uri identifier = Ok (Some e) → ve_identifier e = identifier.
Proof.
  unfold verdict. intros H.
  destruct (JSONLDParser.get_node parser uri) as [node|]; [|done].
  destruct (negb (Re.matches (pattern ALPHANUM) identifier)); [by simplify_eq |].
  destruct (is_concept node) as [concept|]; [|done].
  destruct (concept && negb _); by simplify_eq.
Qed.

(** The loop is [check_all] on the identifiers it evaluates, followed by
    the failure of [split] on the first value that is not a string. *)
Lemma loop_check_all parser uris seen is_valid errors :
  loop parser uris seen is_valid errors =
  match check_all parser (evaluated uris seen) is_valid errors with
  | (Ok r, es) =>
      if forallb is_str uris then (Ok r, es) else (Raise AttributeError, es)
  | (Raise e, es) => (Raise e, es)
  end.
Proof.
  revert seen is_valid errors.
  induction uris as [|v uris IH]; intros seen is_valid errors; [done |].
  destruct v; try done.
  cbn [loop evaluated forallb is_str andb].
  destruct (String.eqb _ _ || bool_decide _); [apply IH |].
  cbn [check_all]. unfold Run.bind.
  destruct (_validate_naming_patterns parser s (_get_identifier s) errors)
    as [[ok|e] es]; [apply IH | done].
Qed.

(** The errors recorded by [check_all]: those it started with, then the
    violations of the pairs it went through; when it returns, it went
    through all of them. *)
Lemma check_all_Ok parser pairs is_valid errors r es :
  check_all parser pairs is_valid errors = (Ok r, es) →
  es = errors ++ violations parser pairs ∧
  r = is_valid && bool_decide (violations parser pairs = []) ∧
  Forall (λ p, ∃ v, verdict parser p.1 p.2 = Ok v) pairs.
Proof.
  revert is_valid errors r es.
  induction pairs as [|[uri identifier] pairs IH]; intros is_valid errors r es.
  - cbn. intros [= <- <-]. by rewrite app_nil_r, andb_true_r.
  - cbn [check_all]. unfold Run.bind.
    rewrite validate_naming_patterns_verdict.
    unfold violations. cbn [flat_map fst snd].
    destruct (verdict parser uri identifier) as [[e|]|] eqn:Hv; [| |done].
    + intros H. apply IH in H as (-> & -> & Hall).
      split; [by rewrite <- app_assoc |]. split.
      * rewrite (bool_decide_false ([e] ++ _ = [])) by done.
        by rewrite andb_false_r.
      * constructor; [cbn; by eexists | done].
    + intros H. apply IH in H as (-> & -> & Hall). cbn [app].
      split; [done |]. split; [done |]. constructor; [cbn; by eexists | done].
Qed.

(** Whatever the outcome, [check_all] only adds violations whose local
    names are, in order, among those of the pairs. *)
Lemma check_all_names parser pairs is_valid errors :
  ∃ new, (check_all parser pairs is_valid errors).2 = errors ++ new ∧
         sublist (map ve_identifier new) (map snd pairs).
Proof.
  revert is_valid errors.
  induction pairs as [|[uri identifier] pairs IH]; intros is_valid errors.
  - exists []. by rewrite app_nil_r.
  - cbn [check_all]. unfold Run.bind.
    rewrite validate_naming_patterns_verdict.
    destruct (verdict parser uri identifier) as [[e|]|] eqn:Hv.
    + destruct (IH false (errors ++ [e])) as (new & Hnew & Hsub).
      exists (e :: new). split; [by rewrite Hnew, <- app_assoc |].
      cbn. rewrite (verdict_identifier _ _ _ _ Hv). by constructor.
    + destruct (IH is_valid errors) as (new & Hnew & Hsub).
      exists new. split; [done |]. by constructor.
    + exists []. split; [by rewrite app_nil_r | apply sublist_nil_l].
Qed.

Lemma check_all_total parser pairs is_valid errors :
  Forall (λ p, ∃ v, verdict parser p.1 p.2 = Ok v) pairs →
  ∃ r es, check_all parser pairs is_valid errors = (Ok r, es).
Proof.
  revert is_valid errors.
  induction pairs as [|[uri identifier] pairs IH]; intros is_valid errors Hall.
  - by eexists _, _.
  - inversion Hall as [|? ? [v Hv] Hrest]; subst. cbn in Hv.
    cbn [check_all]. unfold Run.bind.
    rewrite validate_naming_patterns_verdict, Hv.
    destruct v; by apply IH.
Qed.

(** The local names submitted to the rules are not empty, were not seen
    before, and are pairwise distinct. *)
Lemma evaluated_names uris seen :
  Forall (λ p, p.2 ≠ EmptyString ∧ (p.2 ∉ seen) ∧ p.2 = _get_identifier p.1)
    (evaluated uris seen) ∧
  NoDup (map snd (evaluated uris seen)).
Proof.
  revert seen. induction uris as [|v uris IH]; intros seen.
  - split; constructor.
  - destruct v; try (split; constructor).
    cbn [evaluated].
    destruct (String.eqb_spec (_get_identifier s) EmptyString) as [He|He];
      [apply IH |].
    cbn [orb]. case_bool_decide as Hs; [apply IH |].
    destruct (IH ({[_get_identifier s]} ∪ seen)) as [Hall Hnd]. split.
    + constructor; [done |].
      eapply Forall_impl; [exact Hall |]. intros p (? & ? & ?). set_solver.
    + cbn. constructor; [|done].
      intros Hin. apply list_elem_of_fmap in Hin as (p & Hp & Hin).
      rewrite Forall_forall in Hall. apply Hall in Hin as (_ & Hn & _).
      set_solver.
Qed.

(** An identifier submitted to the rules is the first to yield its local
    name. *)
Lemma evaluated_first uris seen uri name :
  (uri, name) ∈ evaluated uris seen → first_yielding name uris = Some (JStr uri).
Proof.
  revert seen. induction uris as [|v uris IH]; intros seen Hin.
  - by apply elem_of_nil in Hin.
  - destruct v; try by apply elem_of_nil in Hin.
    cbn [evaluated] in Hin. unfold first_yielding. cbn [List.find].
    destruct (String.eqb_spec (_get_identifier s) EmptyString) as [He|He].
    + pose proof (proj1 (evaluated_names uris seen)) as Hall.
      rewrite Forall_forall in Hall. destruct (Hall _ Hin) as (Hne & _ & _).
      cbn in Hne. destruct (String.eqb_spec (_get_identifier s) name); [congruence |].
      exact (IH seen Hin).
    + cbn [orb] in Hin. case_bool_decide as Hs.
      * pose proof (proj1 (evaluated_names uris seen)) as Hall.
        rewrite Forall_forall in Hall. destruct (Hall _ Hin) as (_ & Hns & _).
        cbn in Hns. destruct (String.eqb_spec (_get_identifier s) name); [congruence |].
        exact (IH seen Hin).
      * apply elem_of_cons in Hin as [[= -> ->]|Hin].
        { by rewrite String.eqb_refl. }
        pose proof (proj1 (evaluated_names uris ({[_get_identifier s]} ∪ seen))) as Hall.
        rewrite Forall_forall in Hall. destruct (Hall _ Hin) as (_ & Hns & _).
        cbn in Hns. destruct (String.eqb_spec (_get_identifier s) name);
          [set_solver |].
        exact (IH _ Hin).
Qed.

(** Every local name of the list that is not empty and was not seen before
    is submitted to the rules, when all the values are strings. *)
Lemma evaluated_complete uris seen uri :
  forallb is_str uris = true → JStr uri ∈ uris →
  _get_identifier uri ≠ EmptyString → _get_identifier uri ∉ seen →
  ∃ first, (first, _get_identifier uri) ∈ evaluated uris seen.
Proof.
  revert seen. induction uris as [|v uris IH]; intros seen Hstr Hin Hne Hns.
  - by apply elem_of_nil in Hin.
  - destruct v; try done. cbn [forallb is_str andb] in Hstr.
    cbn [evaluated].
    destruct (String.eqb_spec (_get_identifier s) EmptyString) as [He|He].
    + apply elem_of_cons in Hin as [[= ->]|Hin]; [done |]. by apply IH.
    + cbn [orb]. case_bool_decide as Hs.
      * apply elem_of_cons in Hin as [[= ->]|Hin]; [done |]. by apply IH.
      * destruct (decide (_get_identifier uri = _get_identifier s)) as [E|E].
        { exists s. rewrite E. apply elem_of_cons. by left. }
        apply elem_of_cons in Hin as [[= ->]|Hin]; [done |].
        destruct (IH ({[_get_identifier s]} ∪ seen)) as [first Hf];
          [done | done | done | set_solver |].
        exists first. apply elem_of_cons. by right.
Qed.

Lemma mentioning_app name l1 l2 :
  mentioning name (l1 ++ l2) = mentioning name l1 ++ mentioning name l2.
Proof. apply List.filter_app. Qed.

(** Among the violations of pairwise distinct local names, those that
    mention a name are the violation of that name. *)
Lemma mentioning_violations parser pairs name :
  NoDup (map snd pairs) →
  (name ∉ map snd pairs → mentioning name (violations parser pairs) = []) ∧
  (∀ uri v, (uri, name) ∈ pairs → verdict parser uri name = Ok v →
     mentioning name (violations parser pairs) = option_list v).
Proof.
  induction pairs as [|[u n] pairs IH]; intros Hnd.
  - split; [done |]. intros uri v Hin. by apply elem_of_nil in Hin.
  - apply NoDup_cons in Hnd as [Hn Hnd]. destruct (IH Hnd) as [IHa IHb].
    unfold violations. cbn [flat_map fst snd]. rewrite mentioning_app.
    fold (violations parser pairs).
    assert (∀ e, verdict parser u n = Ok (Some e) →
                 mentioning name [e] = if decide (n = name) then [e] else []) as He.
    { intros e Hv. apply verdict_identifier in Hv. unfold mentioning. cbn.
      rewrite Hv. destruct (String.eqb_spec n name); by case_decide. }
    split.
    + intros Hnot. cbn in Hnot. apply not_elem_of_cons in Hnot as [Hne Hnot].
      rewrite (IHa Hnot), app_nil_r.
      destruct (verdict parser u n) as [[e|]|] eqn:Hv; try done.
      rewrite (He e eq_refl). by rewrite decide_False.
    + intros uri v Hin Hv. apply elem_of_cons in Hin as [[= -> ->]|Hin].
      * rewrite (IHa Hn), app_nil_r, Hv. destruct v as [e|]; [|done].
        rewrite (He e Hv). by rewrite decide_True.
      * assert (n ≠ name) as Hne.
        { intros ->. apply Hn. apply list_elem_of_fmap. by exists (uri, name). }
        rewrite (IHb uri v Hin Hv).
        destruct (verdict parser u n) as [[e|]|] eqn:Hv'; try done.
        rewrite (He e eq_refl). by rewrite decide_False.
Qed.

Lemma mentioning_absent name errors :
  name ∉ map ve_identifier errors → mentioning name errors = [].
Proof.
  induction errors as [|e errors IH]; intros Hn; [done |].
  cbn in Hn. apply not_elem_of_cons in Hn as [Hne Hn].
  unfold mentioning. cbn [List.filter].
  destruct (String.eqb_spec (ve_identifier e) name); [congruence | by apply IH].
Qed.

Lemma mentioning_NoDup name errors :
  NoDup (map ve_identifier errors) → length (mentioning name errors) ≤ 1.
Proof.
  induction errors as [|e errors IH]; intros Hnd; [cbn; lia |].
  cbn in Hnd. apply NoDup_cons in Hnd as [Hn Hnd].
  unfold mentioning. cbn [List.filter].
  destruct (String.eqb_spec (ve_identifier e) name) as [E|E]; [|by apply IH].
  fold (mentioning name errors). rewrite mentioning_absent; [cbn; lia |].
  by rewrite <- E.
Qed.

(** ** Runs of [_validate_uris] *)

(** The errors of a run, whatever its outcome, are those of [check_all] on
    the identifiers it evaluates. *)
Lemma validate_uris_errors parser errors :
  (_validate_uris parser errors).2 =
  (check_all parser (evaluated (_extract_uris (JSONLDParser.data parser)) ∅)
     true errors).2.
Proof.
  unfold _validate_uris. rewrite loop_check_all.
  destruct (check_all _ _ _ _) as [[r|e] es]; [|done].
  by destruct (forallb is_str _).
Qed.

(** A run that returns went through every value, all of them strings. *)
Lemma validate_uris_Ok parser errors r es :
  _validate_uris parser errors = (Ok r, es) →
  let pairs := evaluated (_extract_uris (JSONLDParser.data parser)) ∅ in
  forallb is_str (_extract_uris (JSONLDParser.data parser)) = true ∧
  es = errors ++ violations parser pairs ∧
  r = bool_decide (violations parser pairs = []) ∧
  Forall (λ p, ∃ v, verdict parser p.1 p.2 = Ok v) pairs.
Proof.
  unfold _validate_uris. rewrite loop_check_all.
  destruct (check_all _ _ _ _) as [[r'|e] es'] eqn:Hc; [|done].
  destruct (forallb is_str _); [|done]. intros [= -> ->].
  by apply check_all_Ok in Hc as (-> & -> & Hall).
Qed.

(** In a run that returns, the errors that mention the local name of an
    identifier of the document are what the rules find for the first
    identifier that yields this name. *)
Lemma validate_uris_mentioning parser r es uri :
  _validate_uris parser [] = (Ok r, es) →
  JStr uri ∈ _extract_uris (JSONLDParser.data parser) →
  _get_identifier uri ≠ EmptyString →
  ∃ first v,
    first_yielding (_get_identifier uri) (_extract_uris (JSONLDParser.data parser))
      = Some (JStr first) ∧
    verdict parser first (_get_identifier uri) = Ok v ∧
    mentioning (_get_identifier uri) es = option_list v.
Proof.
  intros Hrun Hin Hne.
  apply validate_uris_Ok in Hrun as (Hstr & -> & _ & Hall). cbn [app].
  destruct (evaluated_complete _ ∅ uri Hstr Hin Hne) as [first Hf]; [set_solver |].
  rewrite Forall_forall in Hall. destruct (Hall _ Hf) as [v Hv]. cbn in Hv.
  exists first, v. split; [by eapply evaluated_first |]. split; [done |].
  eapply mentioning_violations; [apply evaluated_names | done | done].
Qed.

(** ** Scenarios *)

Lemma validate_parsed json_loads content data :
  json_loads content = inr data →
  validate json_loads content =
  _validate_uris
    (JSONLDParser.mk content (JSONLDParser._map_ids_to_lines content) data).
Proof. intros H. unfold validate, new_parser. by rewrite H. Qed.

(** C2, as stated, fails: the identifier [ex:Invalid_Name] holds no ['#'],
    its local name is empty, and the document is found valid, with no
    violation. *)
Lemma invalid_name_is_skipped :
  validate (loads_of (untyped_text "ex:Invalid_Name") (untyped_doc "ex:Invalid_Name"))
    (untyped_text "ex:Invalid_Name") [] = (Ok true, []).
Proof. vm_compute. reflexivity. Qed.

(** C2, amended: validating [{"@graph":[{"@id":"ex:Invalid_Name"}]}] gives
    no violation and a valid result; validating the same document with the
    identifier [ex#Invalid_Name] gives exactly one violation, with the
    ALPHANUM message, for the local name [Invalid_Name], and an invalid
    result. *)
Theorem invalid_name_scenario json_loads content :
  (json_loads content = inr (untyped_doc "ex:Invalid_Name") →
   validate json_loads content [] = (Ok true, [])) ∧
  (json_loads content = inr (untyped_doc "ex#Invalid_Name") →
   validate json_loads content [] =
   (Ok false,
    [mkValidationError "Must be alphanumeric starting with a letter" "Invalid_Name"
       (JSONLDParser.first_line (JSONLDParser._map_ids_to_lines content)
          "ex#Invalid_Name")])).
Proof.
  split; intros H; rewrite (validate_parsed _ _ _ H); reflexivity.
Qed.

Lemma invalid_name_scenario_witness :
  validate (loads_of (untyped_text "ex:Invalid_Name") (untyped_doc "ex:Invalid_Name"))
    (untyped_text "ex:Invalid_Name") [] = (Ok true, []) ∧
  validate (loads_of (untyped_text "ex#Invalid_Name") (untyped_doc "ex#Invalid_Name"))
    (untyped_text "ex#Invalid_Name") [] =
  (Ok false,
   [mkValidationError "Must be alphanumeric starting with a letter" "Invalid_Name" 1]).
Proof.
  split.
  - apply (proj1 (invalid_name_scenario _ _)). reflexivity.
  - apply (proj2 (invalid_name_scenario
                    (loads_of (untyped_text "ex#Invalid_Name")
                       (untyped_doc "ex#Invalid_Name"))
                    (untyped_text "ex#Invalid_Name"))).
    reflexivity.
Defined.

(** C3, as stated, fails: the identifier [ex:lowerConcept] holds no ['#'],
    its local name is empty, and the document is found valid, with no
    violation. *)
Lemma lower_concept_is_skipped :
  validate (loads_of (concept_text "ex:lowerConcept") (concept_doc "ex:lowerConcept"))
    (concept_text "ex:lowerConcept") [] = (Ok true, []).
Proof. vm_compute. reflexivity. Qed.

(** C3, amended: validating
    [{"@graph":[{"@id":"ex:lowerConcept","@type":["skos:Concept"]}]}] gives
    no violation and a valid result; validating the same document with the
    identifier [ex#lowerConcept] gives exactly one violation, with the PASCAL
    message, for the local name [lowerConcept], and no ALPHANUM violation. *)
Theorem lower_concept_scenario json_loads content :
  (json_loads content = inr (concept_doc "ex:lowerConcept") →
   validate json_loads content [] = (Ok true, [])) ∧
  (json_loads content = inr (concept_doc "ex#lowerConcept") →
   validate json_loads content [] =
   (Ok false,
    [mkValidationError "Concepts must use PascalCase" "lowerConcept"
       (JSONLDParser.first_line (JSONLDParser._map_ids_to_lines content)
          "ex#lowerConcept")])).
Proof.
  split; intros H; rewrite (validate_parsed _ _ _ H); reflexivity.
Qed.

Lemma lower_concept_scenario_witness :
  validate (loads_of (concept_text "ex:lowerConcept") (concept_doc "ex:lowerConcept"))
    (concept_text "ex:lowerConcept") [] = (Ok true, []) ∧
  validate (loads_of (concept_text "ex#lowerConcept") (concept_doc "ex#lowerConcept"))
    (concept_text "ex#lowerConcept") [] =
  (Ok false, [mkValidationError "Concepts must use PascalCase" "lowerConcept" 1]).
Proof.
  split.
  - apply (proj1 (lower_concept_scenario _ _)). reflexivity.
  - apply (proj2 (lower_concept_scenario
                    (loads_of (concept_text "ex#lowerConcept")
                       (concept_doc "ex#lowerConcept"))
                    (concept_text "ex#lowerConcept"))).
    reflexivity.
Defined.

(** ** Text that is not JSON *)

(** C8: on a text that [json.loads] rejects, [validate] returns [False] and
    records one error, which is no naming violation, whose message is not
    empty and whose line is the line reported by [json.loads]. *)
Theorem invalid_json_is_fatal json_loads content e :
  json_loads content = inl e →
  ∃ parse_error,
    validate json_loads content [] = (Ok false, [parse_error]) ∧
    naming_violations [parse_error] = [] ∧
    ve_message parse_error = "Invalid JSON: " +:+ msg e ∧
    ve_message parse_error ≠ EmptyString ∧
    ve_line parse_error = lineno e.
Proof.
  intros H.
  exists (mkValidationError ("Invalid JSON: " +:+ msg e) EmptyString (lineno e)).
  unfold validate, new_parser. rewrite H. done.
Qed.

Lemma invalid_json_is_fatal_witness :
  ∃ parse_error,
    validate (loads_of "{}" (JDict [])) EmptyString [] = (Ok false, [parse_error]) ∧
    naming_violations [parse_error] = [] ∧
    ve_message parse_error = "Invalid JSON: Expecting value" ∧
    ve_message parse_error ≠ EmptyString ∧
    ve_line parse_error = 1.
Proof.
  apply (invalid_json_is_fatal (loads_of "{}" (JDict [])) EmptyString
           (mkJSONDecodeError "Expecting value" 1)).
  reflexivity.
Defined.

(** ** The concept marker *)

Lemma existsb_eq_str (s : string) (l : list json) :
  existsb (λ x, Py.eq_str x s) l = true ↔ JStr s ∈ l.
Proof.
  induction l as [|x l IH]; cbn.
  - split; [done | intros H; by apply elem_of_nil in H].
  - rewrite orb_true_iff, IH, elem_of_cons.
    assert (Py.eq_str x s = true ↔ JStr s = x) as ->; [|done].
    destruct x; cbn; try (split; congruence).
    destruct (String.eqb_spec s0 s); split; congruence.
Qed.

(** C9: on an identifier that passes ALPHANUM and fails PASCAL, whose node
    has a string for [@type], the PASCAL violation is recorded exactly when
    the marker [skos:Concept] is a substring of that string; when [@type] is
    a sequence, exactly when the marker is one of its elements. *)
Theorem concept_rule_by_containment parser uri identifier node errors :
  JSONLDParser.get_node parser uri = Ok node →
  Re.matches (pattern ALPHANUM) identifier = true →
  Re.matches (pattern PASCAL) identifier = false →
  let outcome := _validate_naming_patterns parser uri identifier errors in
  let fires :=
    outcome =
    (Ok false,
     errors ++ [mkValidationError "Concepts must use PascalCase" identifier
                  (JSONLDParser.get_line_number parser uri)]) in
  let passes := outcome = (Ok true, errors) in
  (∀ s, Py.dict_get node "@type" = Some (JStr s) →
     (is_substring "skos:Concept" s → fires) ∧
     (¬ is_substring "skos:Concept" s → passes)) ∧
  (∀ l, Py.dict_get node "@type" = Some (JList l) →
     (JStr "skos:Concept" ∈ l → fires) ∧
     (JStr "skos:Concept" ∉ l → passes)).
Proof.
  intros Hnode Ha Hp outcome fires passes. subst outcome fires passes.
  rewrite validate_naming_patterns_verdict. unfold verdict, is_concept.
  rewrite Hnode, Ha, Hp. cbn [negb].
  split.
  - intros s ->. cbn [Py.contains]. split; intros H.
    + apply contains_spec in H. by rewrite H.
    + apply contains_false in H. by rewrite H.
  - intros l ->. cbn [Py.contains]. split; intros H.
    + apply existsb_eq_str in H. by rewrite H.
    + destruct (existsb _ l) eqn:E; [|done]. by apply existsb_eq_str in E.
Qed.

Lemma concept_rule_by_containment_witness :
  let parser text doc := JSONLDParser.mk text (JSONLDParser._map_ids_to_lines text) doc in
  let embedded :=
    parser (typed_text "ex#lowerConcept" (quoted "Xskos:ConceptY"))
      (typed_doc "ex#lowerConcept" (JStr "Xskos:ConceptY")) in
  let other :=
    parser (typed_text "ex#lowerConcept" ("[" +:+ quoted "Xskos:ConceptY" +:+ "]"))
      (typed_doc "ex#lowerConcept" (JList [JStr "Xskos:ConceptY"])) in
  _validate_naming_patterns embedded "ex#lowerConcept" "lowerConcept" [] =
    (Ok false, [mkValidationError "Concepts must use PascalCase" "lowerConcept" 1]) ∧
  _validate_naming_patterns other "ex#lowerConcept" "lowerConcept" [] = (Ok true, []).
Proof.
  intros parser embedded other. split.
  - refine (proj1 (proj1 (concept_rule_by_containment embedded "ex#lowerConcept"
                            "lowerConcept" _ [] eq_refl eq_refl eq_refl)
                     "Xskos:ConceptY" eq_refl) _).
    by exists "X", "Y".
  - refine (proj2 (proj2 (concept_rule_by_containment other "ex#lowerConcept"
                            "lowerConcept" _ [] eq_refl eq_refl eq_refl)
                     [JStr "Xskos:ConceptY"] eq_refl) _).
    intros H. apply elem_of_cons in H as [H|H];
      [discriminate H | by apply elem_of_nil in H].
Defined.

(** ** The ALPHANUM rule comes first *)

(** C4, as stated, fails: the local name of [ex:Invalid_Name] fails the
    alphanumeric pattern, be it taken as the empty string that
    [_get_identifier] returns or as the whole identifier, and no violation
    is recorded; and the local name [bad_name] is never reported when the
    validator raises on an earlier node. *)
Lemma alphanum_failure_unreported :
  let skipped :=
    parser_of (untyped_text "ex:Invalid_Name") (untyped_doc "ex:Invalid_Name") in
  let raising :=
    parser_of (two_nodes_text "ex#Good" "5" "ex#bad_name")
      (two_nodes_doc "ex#Good" (JInt 5) "ex#bad_name") in
  (JStr "ex:Invalid_Name" ∈ _extract_uris (JSONLDParser.data skipped) ∧
   Re.matches (pattern ALPHANUM) (_get_identifier "ex:Invalid_Name") = false ∧
   Re.matches (pattern ALPHANUM) "ex:Invalid_Name" = false ∧
   _validate_uris skipped [] = (Ok true, [])) ∧
  (JStr "ex#bad_name" ∈ _extract_uris (JSONLDParser.data raising) ∧
   Re.matches (pattern ALPHANUM) (_get_identifier "ex#bad_name") = false ∧
   _validate_uris raising [] = (Raise TypeError, [])).
Proof.
  cbv zeta. split.
  - split; [|by vm_compute]. apply list_elem_of_In. vm_compute. by left.
  - split; [|by vm_compute]. apply list_elem_of_In. vm_compute. right. by left.
Qed.

(** C4, amended: in a run of the validator that returns, for every
    identifier of the document whose local name, as [_get_identifier] gives
    it, is not empty and fails the alphanumeric pattern, exactly one
    violation is recorded for that local name, the ALPHANUM one, and so no
    PASCAL one, whatever the type of the node; the result is invalid. *)
Theorem alphanum_failure_short_circuits parser uri r es :
  JStr uri ∈ _extract_uris (JSONLDParser.data parser) →
  _get_identifier uri ≠ EmptyString →
  Re.matches (pattern ALPHANUM) (_get_identifier uri) = false →
  _validate_uris parser [] = (Ok r, es) →
  r = false ∧
  ∃ line,
    mentioning (_get_identifier uri) es =
    [mkValidationError "Must be alphanumeric starting with a letter"
       (_get_identifier uri) line].
Proof.
  intros Hin Hne Hfail Hrun.
  destruct (validate_uris_mentioning _ _ _ _ Hrun Hin Hne)
    as (first & v & _ & Hv & Hm).
  unfold verdict in Hv. rewrite Hfail in Hv. cbn [negb] in Hv.
  destruct (JSONLDParser.get_node parser first); [|done].
  injection Hv as <-. cbn in Hm. split; [|by eexists].
  apply validate_uris_Ok in Hrun as (_ & -> & -> & _). cbn [app] in *.
  apply bool_decide_eq_false. intros E. by rewrite E in Hm.
Qed.

Lemma alphanum_failure_short_circuits_witness :
  let parser := parser_of (concept_text "ex#bad_name") (concept_doc "ex#bad_name") in
  false = false ∧
  ∃ line,
    mentioning (_get_identifier "ex#bad_name")
      [mkValidationError "Must be alphanumeric starting with a letter" "bad_name" 1] =
    [mkValidationError "Must be alphanumeric starting with a letter"
       (_get_identifier "ex#bad_name") line].
Proof.
  intros parser.
  apply (alphanum_failure_short_circuits parser "ex#bad_name" false
           [mkValidationError "Must be alphanumeric starting with a letter"
              "bad_name" 1]).
  - apply list_elem_of_In. vm_compute. by left.
  - vm_compute. discriminate.
  - reflexivity.
  - reflexivity.
Defined.

(** ** One report per local name *)

(** An identifier whose local name is empty, was seen, or is yielded by an
    earlier identifier of the list, changes nothing to the loop. *)
Lemma loop_skip parser pre uri post seen is_valid errors :
  (_get_identifier uri = EmptyString ∨ _get_identifier uri ∈ seen ∨
   ∃ earlier, JStr earlier ∈ pre ∧ _get_identifier earlier = _get_identifier uri) →
  loop parser (pre ++ JStr uri :: post) seen is_valid errors =
  loop parser (pre ++ post) seen is_valid errors.
Proof.
  revert seen is_valid errors.
  induction pre as [|v pre IH]; intros seen is_valid errors H.
  - cbn [app loop].
    destruct H as [->|[H|(earlier & Hin & _)]]; [done | |by apply elem_of_nil in Hin].
    by rewrite (bool_decide_true _ H), orb_true_r.
  - destruct v; try done. cbn [app loop].
    destruct (String.eqb_spec (_get_identifier s) EmptyString) as [He|He].
    + apply IH. destruct H as [H|[H|(earlier & Hin & E)]]; [by left | by right; left |].
      apply elem_of_cons in Hin as [[= ->]|Hin]; [left; congruence |].
      right; right. by exists earlier.
    + cbn [orb]. case_bool_decide as Hs.
      * apply IH. destruct H as [H|[H|(earlier & Hin & E)]]; [by left | by right; left |].
        apply elem_of_cons in Hin as [[= ->]|Hin]; [right; left; congruence |].
        right; right. by exists earlier.
      * unfold Run.bind.
        destruct (_validate_naming_patterns parser s (_get_identifier s) errors)
          as [[ok|e] es]; [|done].
        apply IH. destruct H as [H|[H|(earlier & Hin & E)]];
          [by left | right; left; set_solver |].
        apply elem_of_cons in Hin as [[= ->]|Hin]; [right; left; set_solver |].
        right; right. by exists earlier.
Qed.

(** C5: for every document and every local name, at most one recorded
    violation mentions that name; and an identifier that comes, in the order
    of the traversal, after an identifier that yields the same local name is
    skipped: the run is the run of the loop without it. *)
Theorem local_name_reported_once parser :
  (∀ name, length (mentioning name (_validate_uris parser []).2) ≤ 1) ∧
  (∀ pre uri post earlier,
     _extract_uris (JSONLDParser.data parser) = pre ++ JStr uri :: post →
     JStr earlier ∈ pre →
     _get_identifier earlier = _get_identifier uri →
     _validate_uris parser [] = loop parser (pre ++ post) ∅ true []).
Proof.
  split.
  - intros name. rewrite validate_uris_errors.
    destruct (check_all_names parser
                (evaluated (_extract_uris (JSONLDParser.data parser)) ∅) true [])
      as (new & -> & Hsub).
    cbn [app]. apply mentioning_NoDup.
    exact (sublist_NoDup _ _ (proj2 (evaluated_names _ _)) Hsub).
  - intros pre uri post earlier Hx Hin E. unfold _validate_uris. rewrite Hx.
    apply loop_skip. right; right. by exists earlier.
Qed.

Lemma local_name_reported_once_witness :
  let parser := JSONLDParser.mk EmptyString [] (pair_doc "a#x_y" "b#x_y") in
  length (mentioning "x_y" (_validate_uris parser []).2) ≤ 1 ∧
  _validate_uris parser [] = loop parser ([JStr "a#x_y"] ++ []) ∅ true [].
Proof.
  intros parser. split.
  - apply (proj1 (local_name_reported_once parser)).
  - apply (proj2 (local_name_reported_once parser) [JStr "a#x_y"] "b#x_y" [] "a#x_y").
    + reflexivity.
    + apply list_elem_of_In. by left.
    + reflexivity.
Defined.

(** ** All violations are collected *)

Lemma evaluated_elem uris seen uri name :
  (uri, name) ∈ evaluated uris seen → JStr uri ∈ uris.
Proof.
  intros H. apply evaluated_first in H. unfold first_yielding in H.
  apply List.find_some in H as [H _]. by apply list_elem_of_In.
Qed.

(** C6, as stated, fails: this text is JSON, no local name of it violates a
    rule, and [validate] does not return [True]: it raises on the number
    that stands for the type of the node. *)
Lemma raising_run_returns_nothing :
  validate (loads_of (typed_text "ex#Lower" "5") (typed_doc "ex#Lower" (JInt 5)))
    (typed_text "ex#Lower" "5") [] = (Raise TypeError, []).
Proof. vm_compute. reflexivity. Qed.

(** C6, amended: for every text that is JSON and on which [validate]
    returns, the result is [True] exactly when no violation was recorded;
    for every identifier of the document whose local name is not empty, the
    recorded violations that mention this name are what the rules record for
    the first identifier that yields it; and every recorded violation
    mentions the local name, not empty, of an identifier of the document. *)
Theorem validate_collects_all json_loads content data r es :
  json_loads content = inr data →
  validate json_loads content [] = (Ok r, es) →
  let parser := parser_of content data in
  (r = true ↔ es = []) ∧
  (∀ uri, JStr uri ∈ _extract_uris data → _get_identifier uri ≠ EmptyString →
     ∃ first ok,
       first_yielding (_get_identifier uri) (_extract_uris data) = Some (JStr first) ∧
       _validate_naming_patterns parser first (_get_identifier uri) [] =
       (Ok ok, mentioning (_get_identifier uri) es)) ∧
  (∀ e, e ∈ es →
     ∃ uri, JStr uri ∈ _extract_uris data ∧
            ve_identifier e = _get_identifier uri ∧ ve_identifier e ≠ EmptyString).
Proof.
  intros Hload Hrun parser. rewrite (validate_parsed _ _ _ Hload) in Hrun.
  fold (parser_of content data) in Hrun. fold parser in Hrun.
  split; [|split].
  - apply validate_uris_Ok in Hrun as (_ & -> & -> & _). cbn [app].
    by rewrite bool_decide_eq_true.
  - intros uri Hin Hne.
    destruct (validate_uris_mentioning parser r es uri Hrun Hin Hne)
      as (first & v & Hfirst & Hv & ->).
    exists first. destruct v as [e|]; eexists; (split; [done |]);
      by rewrite validate_naming_patterns_verdict, Hv.
  - intros e He.
    apply validate_uris_Ok in Hrun as (_ & -> & _ & _). cbn [app] in He.
    unfold violations in He. apply list_elem_of_In, in_flat_map in He
      as ([uri name] & Hp & He).
    apply list_elem_of_In in Hp. cbn [fst snd] in He.
    destruct (verdict parser uri name) as [[e'|]|] eqn:Hv; try done.
    destruct He as [->|[]]. apply verdict_identifier in Hv.
    pose proof (proj1 (evaluated_names
                         (_extract_uris (JSONLDParser.data parser)) ∅)) as Hall.
    rewrite Forall_forall in Hall. destruct (Hall _ Hp) as (Hne & _ & Hn).
    cbn [fst snd] in *. exists uri.
    split; [by eapply evaluated_elem | split; congruence].
Qed.

Lemma validate_collects_all_witness :
  let text := pair_text "a#x_y" "a#9z" in
  let data := pair_doc "a#x_y" "a#9z" in
  let es := [mkValidationError "Must be alphanumeric starting with a letter" "x_y" 1;
             mkValidationError "Must be alphanumeric starting with a letter" "9z" 1] in
  (false = true ↔ es = []) ∧
  (∀ uri, JStr uri ∈ _extract_uris data → _get_identifier uri ≠ EmptyString →
     ∃ first ok,
       first_yielding (_get_identifier uri) (_extract_uris data) = Some (JStr first) ∧
       _validate_naming_patterns (parser_of text data) first (_get_identifier uri) [] =
       (Ok ok, mentioning (_get_identifier uri) es)) ∧
  (∀ e, e ∈ es →
     ∃ uri, JStr uri ∈ _extract_uris data ∧
            ve_identifier e = _get_identifier uri ∧ ve_identifier e ≠ EmptyString).
Proof.
  intros text data es.
  apply (validate_collects_all (loads_of text data) text data false es);
    reflexivity.
Defined.

(** ** When the validator raises *)

Lemma first_node_Ok nodes uri :
  forallb is_dict nodes = true →
  ∃ node, JSONLDParser.first_node nodes uri = Ok node ∧
          (node = [] ∨ JDict node ∈ nodes).
Proof.
  induction nodes as [|n nodes IH]; intros Hall.
  - exists []. by split; [|left].
  - cbn [forallb] in Hall. apply andb_true_iff in Hall as [Hn Hall].
    destruct n; try done. cbn [JSONLDParser.first_node].
    destruct (IH Hall) as (node & Hnode & Hin).
    assert (∃ node, JSONLDParser.first_node nodes uri = Ok node ∧
                    (node = [] ∨ JDict node ∈ JDict items :: nodes)) as Hrest.
    { exists node. split; [done |]. destruct Hin as [->|Hin]; [by left |].
      right. apply elem_of_cons. by right. }
    destruct (Py.dict_get items "@id") as [v|]; [|exact Hrest].
    destruct (Py.eq_str v uri); [|exact Hrest].
    exists items. split; [done |]. right. apply elem_of_cons. by left.
Qed.

Lemma is_concept_Ok node :
  type_is_container (JDict node) = true → ∃ c, is_concept node = Ok c.
Proof.
  unfold type_is_container, is_concept.
  destruct (Py.dict_get node "@type") as [[]|]; intros H; try done; by eexists.
Qed.

Lemma verdict_of_node parser uri identifier node concept :
  JSONLDParser.get_node parser uri = Ok node → is_concept node = Ok concept →
  ∃ v, verdict parser uri identifier = Ok v.
Proof.
  unfold verdict. intros -> ->.
  destruct (negb (Re.matches (pattern ALPHANUM) identifier)); [by eexists |].
  destruct (concept && negb (Re.matches (pattern PASCAL) identifier)); by eexists.
Qed.

(** On a document that is a mapping or a sequence, well formed as above,
    the rules never raise. *)
Lemma verdict_total parser uri identifier :
  graph_nodes_are_mappings (JSONLDParser.data parser) = true →
  graph_is_sequence (JSONLDParser.data parser) = true →
  types_are_containers (JSONLDParser.data parser) = true →
  _extract_uris (JSONLDParser.data parser) ≠ [] →
  ∃ v, verdict parser uri identifier = Ok v.
Proof.
  intros Hmap Hseq Htype Hex.
  assert (∃ node concept, JSONLDParser.get_node parser uri = Ok node ∧
                          is_concept node = Ok concept) as (node & c & Hn & Hc);
    [|by eapply verdict_of_node].
  revert Hmap Hseq Htype Hex.
  unfold graph_nodes_are_mappings, graph_is_sequence, types_are_containers,
    graph_of, JSONLDParser.get_node.
  destruct (JSONLDParser.data parser) as [| | | | |l|items];
    intros Hmap Hseq Htype Hex; try done.
  - cbn [Py.contains]. destruct (existsb _ l); [done |]. by exists [], false.
  - cbn [Py.contains Py.getitem]. unfold Py.dict_has.
    destruct (Py.dict_get items "@graph") as [g|]; [|by exists [], false].
    destruct g as [| | | | |nodes|]; try done. cbn [Py.iter].
    destruct (first_node_Ok nodes uri Hmap) as (node & -> & Hin).
    destruct Hin as [->|Hin]; [by exists [], false |].
    destruct (is_concept_Ok node) as [c Hc]; [|by exists node, c].
    rewrite forallb_forall in Htype. by apply Htype, list_elem_of_In.
Qed.

(** C10, as stated, fails: in each of these three documents every [@id] is
    a string and every element of a top-level [@graph] sequence is a
    mapping, and [validate] raises: on a number for [@type], on a number for
    [@graph], and on a top-level sequence that holds the string [@graph]. *)
Lemma well_typed_ids_still_raise :
  (ids_are_strings (typed_doc "ex#Lower" (JInt 5)) = true ∧
   graph_nodes_are_mappings (typed_doc "ex#Lower" (JInt 5)) = true ∧
   validate (loads_of (typed_text "ex#Lower" "5") (typed_doc "ex#Lower" (JInt 5)))
     (typed_text "ex#Lower" "5") [] = (Raise TypeError, [])) ∧
  (ids_are_strings scalar_graph_doc = true ∧
   graph_nodes_are_mappings scalar_graph_doc = true ∧
   validate (loads_of scalar_graph_text scalar_graph_doc) scalar_graph_text [] =
   (Raise TypeError, [])) ∧
  (ids_are_strings top_list_doc = true ∧
   graph_nodes_are_mappings top_list_doc = true ∧
   validate (loads_of top_list_text top_list_doc) top_list_text [] =
   (Raise TypeError, [])).
Proof. repeat split; by vm_compute. Qed.

(** C10, amended: when every [@id] value of the parsed document is a
    string, every element of the top-level [@graph] sequence is a mapping,
    and moreover the document is a mapping whose [@graph], when present, is
    a sequence (or is a sequence that does not hold the string [@graph], or
    a scalar) and the [@type] of every node of [@graph], when present, is a
    string, a sequence or a mapping, [validate] returns; and there is a
    document with a number for [@id], and one with a number among the
    elements of [@graph], on which it raises. *)
Theorem validate_returns_or_raises :
  (∀ json_loads content data,
     json_loads content = inr data →
     ids_are_strings data = true →
     graph_nodes_are_mappings data = true →
     graph_is_sequence data = true →
     types_are_containers data = true →
     ∃ r es, validate json_loads content [] = (Ok r, es)) ∧
  validate (loads_of number_id_text number_id_doc) number_id_text [] =
    (Raise AttributeError, []) ∧
  validate (loads_of number_node_text number_node_doc) number_node_text [] =
    (Raise AttributeError, []).
Proof.
  split; [|split; by vm_compute].
  intros json_loads content data Hload Hids Hmap Hseq Htype.
  rewrite (validate_parsed _ _ _ Hload).
  unfold _validate_uris. rewrite loop_check_all.
  cbn [JSONLDParser.data]. unfold ids_are_strings in Hids. rewrite Hids.
  destruct (check_all_total
              (JSONLDParser.mk content (JSONLDParser._map_ids_to_lines content) data)
              (evaluated (_extract_uris data) ∅) true []) as (r & es & ->);
    [|by exists r, es].
  destruct (_extract_uris data) as [|v uris] eqn:Hex; [constructor |].
  rewrite <- Hex. apply Forall_forall. intros [uri identifier] _.
  apply verdict_total; cbn [JSONLDParser.data]; try done. by rewrite Hex.
Qed.

Lemma validate_returns_or_raises_witness :
  ∃ r es,
    validate (loads_of (concept_text "ex#lowerConcept") (concept_doc "ex#lowerConcept"))
      (concept_text "ex#lowerConcept") [] = (Ok r, es).
Proof.
  apply (proj1 validate_returns_or_raises
           (loads_of (concept_text "ex#lowerConcept") (concept_doc "ex#lowerConcept"))
           (concept_text "ex#lowerConcept") (concept_doc "ex#lowerConcept"));
    reflexivity.
Defined.

(** * Further properties of the program *)

(** ** More on local names *)

Lemma split_app_sep (c : ascii) (a b : string) :
  PyStr.split c (a +:+ String c b) = PyStr.split c a ++ PyStr.split c b.
Proof.
  induction a as [|x a IH]; simpl.
  - by rewrite Ascii.eqb_refl.
  - rewrite IH. destruct (Ascii.eqb x c); [done |].
    pose proof (split_not_nil c a) as Hnil.
    by destruct (PyStr.split c a).
Qed.

Lemma last_segment_unique (c : ascii) (s r : string) :
  after_last c s r → PyStr.last_item (PyStr.split c s) = r.
Proof.
  intros H. eapply after_last_unique; [apply last_split_after_last | exact H].
Qed.

Lemma after_last_no_other (c d : ascii) (s r : string) :
  after_last c s r → PyStr.has_char d s = false → PyStr.has_char d r = false.
Proof.
  intros [_ [->|[p ->]]] H; [done |].
  rewrite has_char_app in H. simpl in H.
  apply orb_false_iff in H as [_ H]. by apply orb_false_iff in H as [_ H].
Qed.

(** X1: an identifier made of any namespace, a ['#'] and a name that holds
    neither ['/'] nor ['#'] has that name for local name. *)
Theorem get_identifier_of_fragment (ns name : string) :
  PyStr.has_char "/" name = false →
  PyStr.has_char "#" name = false →
  _get_identifier (ns +:+ String "#" name) = name.
Proof.
  intros Hslash Hhash.
  pose proof (last_split_after_last "/" ns) as Hq.
  set (q := PyStr.last_item (PyStr.split "/" ns)) in Hq. clearbody q.
  assert (PyStr.last_item (PyStr.split "/" (ns +:+ String "#" name))
          = q +:+ String "#" name) as Hseg.
  { apply last_segment_unique. destruct Hq as [Hq Hns]. split.
    - rewrite has_char_app. simpl. by rewrite Hq, Hslash.
    - destruct Hns as [->|[p ->]]; [by left |].
      right. exists p. rewrite append_assoc. done. }
  unfold _get_identifier. rewrite Hseg.
  rewrite has_char_app. simpl. rewrite orb_true_r.
  apply last_segment_unique. split; [done |]. right. by exists q.
Qed.

Lemma get_identifier_of_fragment_witness :
  _get_identifier ("http://example.org/ns" +:+ String "#" "MyConcept") = "MyConcept".
Proof. apply get_identifier_of_fragment; reflexivity. Defined.

(** X2: a local name holds neither ['/'] nor ['#'], so that the local name
    of a local name is always empty. *)
Theorem get_identifier_no_separator (uri : string) :
  PyStr.has_char "/" (_get_identifier uri) = false ∧
  PyStr.has_char "#" (_get_identifier uri) = false ∧
  _get_identifier (_get_identifier uri) = EmptyString.
Proof.
  assert (PyStr.has_char "/" (_get_identifier uri) = false ∧
          PyStr.has_char "#" (_get_identifier uri) = false) as [Hs Hh].
  { unfold _get_identifier.
    pose proof (last_split_after_last "/" uri) as Hseg.
    set (seg := PyStr.last_item (PyStr.split "/" uri)) in *. clearbody seg.
    destruct (PyStr.has_char "#" seg); [|done].
    pose proof (last_split_after_last "#" seg) as Hr. split.
    - eapply after_last_no_other; [exact Hr | apply Hseg].
    - apply Hr. }
  split; [done |]. split; [done |].
  set (name := _get_identifier uri) in *. clearbody name.
  unfold _get_identifier.
  pose proof (last_split_after_last "/" name) as Hseg.
  by rewrite (after_last_no_other "/" "#" name _ Hseg Hh).
Qed.

(** X3: the identifiers without a local name, which the validator skips,
    are those whose last segment holds no ['#'] or ends with ['#']. *)
Theorem get_identifier_empty_iff (uri segment : string) :
  after_last "/" uri segment →
  _get_identifier uri = EmptyString ↔
  PyStr.has_char "#" segment = false ∨ ∃ p, segment = p +:+ "#".
Proof.
  intros Hseg. unfold _get_identifier.
  rewrite (last_segment_unique _ _ _ Hseg).
  destruct (PyStr.has_char "#" segment) eqn:Hh.
  - pose proof (last_split_after_last "#" segment) as Hr. split.
    + intros E. rewrite E in Hr. right.
      destruct Hr as [_ [->|[p ->]]]; [done | by exists p].
    + intros [?|[p ->]]; [done |].
      apply last_segment_unique. split; [done |]. right. by exists p.
  - split; [by left | done].
Qed.

Lemma get_identifier_empty_iff_witness :
  _get_identifier "http://example.org/ns#" = EmptyString ↔
  PyStr.has_char "#" "ns#" = false ∨ ∃ p, "ns#" = p +:+ "#".
Proof.
  apply (get_identifier_empty_iff "http://example.org/ns#" "ns#").
  split; [reflexivity |]. right. by exists "http://example.org".
Defined.

(** ** More on the naming patterns *)

Lemma name_tail_spec (s : string) :
  name_tail s = true ↔
  ∃ body nl, s = body +:+ nl ∧
    (∀ x, PyStr.has_char x body = true → Re.alnum x = true) ∧
    (nl = EmptyString ∨ nl = String PyStr.newline EmptyString).
Proof.
  split.
  - induction s as [|c s IH]; intros H.
    + exists EmptyString, EmptyString. by repeat split; [|left].
    + cbn [name_tail] in H. apply orb_true_iff in H as [H|H].
      * apply andb_true_iff in H as [Hc Hs].
        destruct (IH Hs) as (body & nl & -> & Hbody & Hnl).
        exists (String c body), nl. split; [done |]. split; [|done].
        intros x Hx. simpl in Hx. apply orb_true_iff in Hx as [Hx|Hx]; [|by apply Hbody].
        apply Ascii.eqb_eq in Hx. by subst.
      * destruct s as [|? ?]; [|done]. simpl in H. apply Ascii.eqb_eq in H. subst c.
        exists EmptyString, (String PyStr.newline EmptyString).
        by repeat split; [|right].
  - intros (body & nl & -> & Hbody & Hnl).
    induction body as [|c body IH].
    + by destruct Hnl as [->| ->].
    + change (String c body +:+ nl) with (String c (body +:+ nl)).
      cbn [name_tail]. rewrite (Hbody c), IH; [done | |].
      * intros x Hx. apply Hbody. simpl. by rewrite Hx, orb_true_r.
      * simpl. by rewrite Ascii.eqb_refl.
Qed.

Lemma name_body_spec (first : ascii → bool) (s : string) :
  name_body first s = true ↔
  ∃ c body nl, s = String c (body +:+ nl) ∧ first c = true ∧
    (∀ x, PyStr.has_char x body = true → Re.alnum x = true) ∧
    (nl = EmptyString ∨ nl = String PyStr.newline EmptyString).
Proof.
  split.
  - intros H. destruct s as [|c s]; [done |]. cbn [name_body] in H.
    apply andb_true_iff in H as [Hc Hs].
    apply name_tail_spec in Hs as (body & nl & -> & Hbody & Hnl).
    by exists c, body, nl.
  - intros (c & body & nl & -> & Hc & Hbody & Hnl).
    cbn [name_body]. rewrite Hc. apply name_tail_spec. by exists body, nl.
Qed.

(** X4: [re.match] finds a pattern in a text exactly when the text is an
    optional prefix [dfc-m:], a first character of the class of the
    pattern, then letters and digits only, and at most one final newline,
    which the [$] of the pattern lets through. *)
Theorem pattern_language (p : NamingPattern) (s : string) :
  Re.matches (pattern p) s = true ↔ accepted (first_class p) s.
Proof.
  assert (pattern p = prefixed_name (first_class p)) as -> by by destruct p.
  rewrite matches_prefixed_name. generalize (first_class p). intros first.
  assert (∀ t, name_body first t = true ↔
               ∃ c body nl, t = EmptyString +:+ String c (body +:+ nl) ∧ first c = true ∧
                 (∀ x, PyStr.has_char x body = true → Re.alnum x = true) ∧
                 (nl = EmptyString ∨ nl = String PyStr.newline EmptyString)) as Hplain
    by apply name_body_spec.
  destruct (PyStr.strip_prefix "dfc-m:" s) as [rest|] eqn:Hpre.
  - apply strip_prefix_Some in Hpre as ->. rewrite orb_true_iff. split.
    + intros [H|H].
      * apply name_body_spec in H as (c & body & nl & -> & H).
        by exists "dfc-m:", c, body, nl; split; [|split; [right |]].
      * apply Hplain in H as (c & body & nl & E & H).
        by exists EmptyString, c, body, nl; split; [|split; [left |]].
    + intros (pre & c & body & nl & E & [->| ->] & H).
      * right. apply Hplain. by exists c, body, nl.
      * left. apply String.app_inj in E as ->. apply name_body_spec.
        by exists c, body, nl.
  - split.
    + intros H. apply Hplain in H as (c & body & nl & E & H).
      by exists EmptyString, c, body, nl; split; [|split; [left |]].
    + intros (pre & c & body & nl & E & [->| ->] & H).
      * apply Hplain. by exists c, body, nl.
      * subst s. by rewrite strip_prefix_app in Hpre.
Qed.

Lemma upper_not_lower (c : ascii) : Re.upper c && Re.lower c = false.
Proof. destruct c as [[] [] [] [] [] [] [] []]; reflexivity. Qed.

Lemma name_body_letter (s : string) :
  name_body Re.letter s = name_body Re.upper s || name_body Re.lower s.
Proof.
  destruct s as [|c s]; [done |]. cbn [name_body]. unfold Re.letter.
  destruct (Re.lower c), (Re.upper c), (name_tail s); done.
Qed.

Lemma name_body_disjoint (s : string) :
  name_body Re.upper s && name_body Re.lower s = false.
Proof.
  destruct s as [|c s]; [done |]. cbn [name_body].
  pose proof (upper_not_lower c) as H.
  destruct (Re.upper c), (Re.lower c), (name_tail s); done.
Qed.

(** The prefix itself is no name: it holds a ['-'] and a [':']. *)
Lemma prefix_is_no_name (first : ascii → bool) (rest : string) :
  name_body first ("dfc-m:" +:+ rest) = false.
Proof.
  change ("dfc-m:" +:+ rest)
    with (String "d" (String "f" (String "c" (String "-" (String "m" (String ":" rest)))))).
  cbn [name_body name_tail]. 
  change (Re.alnum "f") with true. change (Re.alnum "c") with true.
  change (Re.alnum "-") with false.
  cbn [Re.at_end andb orb]. apply andb_false_r.
Qed.

(** X5: the three patterns split the names: a text matches ALPHANUM
    exactly when it matches PASCAL or CAMEL, and no text matches both PASCAL
    and CAMEL. *)
Theorem patterns_partition (s : string) :
  Re.matches (pattern ALPHANUM) s =
    Re.matches (pattern PASCAL) s || Re.matches (pattern CAMEL) s ∧
  Re.matches (pattern PASCAL) s && Re.matches (pattern CAMEL) s = false.
Proof.
  cbn [pattern]. rewrite !matches_prefixed_name.
  destruct (PyStr.strip_prefix "dfc-m:" s) as [rest|] eqn:Hpre.
  - apply strip_prefix_Some in Hpre as ->.
    rewrite !prefix_is_no_name, !orb_false_r.
    split; [apply name_body_letter | apply name_body_disjoint].
  - split; [apply name_body_letter | apply name_body_disjoint].
Qed.

(** ** More on the line index *)

Lemma enumerate_filter_spec {A} (f : nat * A → bool) (l : list A) (start : nat) :
  (∀ n x, (n, x) ∈ List.filter f (PyStr.enumerate l start) ↔
          ∃ k, n = start + k ∧ l !! k = Some x ∧ f (n, x) = true) ∧
  (∀ i j p q, List.filter f (PyStr.enumerate l start) !! i = Some p →
              List.filter f (PyStr.enumerate l start) !! j = Some q →
              i < j → p.1 < q.1).
Proof.
  revert start. induction l as [|y l IH]; intros start.
  - split; [|done]. intros n x. split; [intros H; by apply elem_of_nil in H |].
    by intros (k & _ & H & _).
  - destruct (IH (S start)) as [IHa IHb]. cbn [PyStr.enumerate List.filter].
    assert (∀ n x, (n, x) ∈ List.filter f (PyStr.enumerate l (S start)) →
                   start < n) as Hlow.
    { intros n x H. apply IHa in H as (k & -> & _). lia. }
    split.
    + intros n x. split.
      * intros H. assert ((n, x) = (start, y) ∧ f (start, y) = true ∨
                          (n, x) ∈ List.filter f (PyStr.enumerate l (S start))) as [[E Hf]|Hin].
        { destruct (f (start, y)); [|by right].
          apply elem_of_cons in H as [H|H]; [by left | by right]. }
        -- injection E as -> ->. exists 0. split; [lia | done].
        -- apply IHa in Hin as (k & -> & Hk & Hf). exists (S k).
           split; [lia |]. split; [done |]. by replace (start + S k) with (S start + k) by lia.
      * intros (k & -> & Hk & Hf). destruct k as [|k].
        -- cbn in Hk. injection Hk as ->. replace (start + 0) with start in * by lia.
           rewrite Hf. apply elem_of_cons. by left.
        -- assert ((start + S k, x) ∈ List.filter f (PyStr.enumerate l (S start))) as Hin.
           { apply IHa. exists k. split; [lia |]. split; [done |].
             by replace (S start + k) with (start + S k) by lia. }
           destruct (f (start, y)); [apply elem_of_cons; by right | done].
    + destruct (f (start, y)); [|exact IHb].
      intros i j p q Hi Hj Hlt. destruct j as [|j]; [lia |]. cbn in Hj.
      destruct i as [|i].
      * cbn in Hi. injection Hi as <-. cbn. destruct q as [n x].
        eapply Hlow. eapply list_elem_of_lookup_2. exact Hj.
      * cbn in Hi. eapply IHb; [exact Hi | exact Hj | lia].
Qed.

(** X6: the line index holds exactly the lines of the text that hold the
    marker, each under its number counted from 1, in increasing order of
    these numbers: no number comes twice. *)
Theorem map_ids_to_lines_spec (content : string) :
  let index := JSONLDParser._map_ids_to_lines content in
  (∀ num line, (num, line) ∈ index ↔
     ∃ k, num = S k ∧ PyStr.split PyStr.newline content !! k = Some line ∧
          is_substring JSONLDParser.marker line) ∧
  (∀ i j p q, index !! i = Some p → index !! j = Some q → i < j → p.1 < q.1).
Proof.
  intros index. subst index. unfold JSONLDParser._map_ids_to_lines.
  destruct (enumerate_filter_spec
              (λ nl : nat * string, PyStr.contains JSONLDParser.marker nl.2)
              (PyStr.split PyStr.newline content) 1) as [Ha Hb].
  split; [|exact Hb]. intros num line. rewrite Ha.
  split; intros (k & -> & Hk & Hm); exists k; (split; [done |]); (split; [done |]);
    by apply contains_spec.
Qed.

Lemma is_substring_trans (a b c : string) :
  is_substring a b → is_substring b c → is_substring a c.
Proof.
  intros (p & q & ->) (p' & q' & ->). exists (p' +:+ p), (q +:+ q').
  by rewrite !append_assoc.
Qed.

(** X7: the line found for an identifier comes no later than the line found
    for any identifier that holds it as a substring: the search by substring
    attributes a short identifier to the first line that mentions a longer
    one, if not to an earlier line. *)
Theorem line_number_of_substring (content : string) (data : json) (short long : string) :
  let parser := parser_of content data in
  is_substring short long →
  JSONLDParser.get_line_number parser long ≠ 0 →
  0 < JSONLDParser.get_line_number parser short ≤
      JSONLDParser.get_line_number parser long.
Proof.
  intros parser Hsub. subst parser.
  unfold JSONLDParser.get_line_number, parser_of, JSONLDParser._map_ids_to_lines.
  cbn [JSONLDParser.id_lines]. rewrite !first_line_enumerate.
  destruct (list_find _ _) as [[k2 line2]|] eqn:H2; [|done]. intros _.
  apply list_find_Some in H2 as (Hk2 & [Hm2 Hu2] & _).
  assert (PyStr.contains short line2 = true) as Hs2.
  { apply contains_spec. eapply is_substring_trans; [exact Hsub |].
    by apply contains_spec. }
  destruct (list_find (λ line, PyStr.contains JSONLDParser.marker line = true ∧
                               PyStr.contains short line = true) _)
    as [[k1 line1]|] eqn:H1.
  - apply list_find_Some in H1 as (_ & _ & Hleast).
    destruct (decide (k2 < k1)) as [Hlt|]; [|lia].
    exfalso. by apply (Hleast k2 line2 Hk2 Hlt).
  - rewrite list_find_None, Forall_lookup in H1. exfalso.
    by apply (H1 k2 line2 Hk2).
Qed.

Lemma line_number_of_substring_witness :
  let parser := parser_of (pair_text "ex#Item" "ex#It") (pair_doc "ex#Item" "ex#It") in
  0 < JSONLDParser.get_line_number parser "ex#It" ≤
      JSONLDParser.get_line_number parser "ex#Item".
Proof.
  apply (line_number_of_substring (pair_text "ex#Item" "ex#It")
           (pair_doc "ex#Item" "ex#It") "ex#It" "ex#Item").
  - by exists EmptyString, "em".
  - vm_compute. discriminate.
Defined.

(** ** More on the lookup of a node *)

Lemma eq_str_true (v : json) (s : string) : Py.eq_str v s = true ↔ v = JStr s.
Proof.
  destruct v; cbn; try (split; congruence).
  destruct (String.eqb_spec s0 s); split; congruence.
Qed.

Lemma first_node_spec (nodes : list json) (uri : string) (node : list (string * json)) :
  JSONLDParser.first_node nodes uri = Ok node ↔
  (∃ pre post, nodes = pre ++ JDict node :: post ∧
               Py.dict_get node "@id" = Some (JStr uri) ∧
               Forall (other_node uri) pre) ∨
  (node = [] ∧ Forall (other_node uri) nodes).
Proof.
  split.
  - revert node. induction nodes as [|n nodes IH]; intros node H.
    + injection H as <-. by right.
    + destruct n as [| | | | | |items]; try done. cbn [JSONLDParser.first_node] in H.
      assert (Py.dict_get items "@id" = Some (JStr uri) ∧ node = items ∨
              Py.dict_get items "@id" ≠ Some (JStr uri) ∧
              JSONLDParser.first_node nodes uri = Ok node) as [[Hid ->]|[Hid Hrest]].
      { destruct (Py.dict_get items "@id") as [v|]; [|by right].
        destruct (Py.eq_str v uri) eqn:E.
        - apply eq_str_true in E as ->. left. split; congruence.
        - right. split; [|done]. intros [= ->]. 
          by rewrite (proj2 (eq_str_true (JStr uri) uri) eq_refl) in E. }
      * left. exists [], nodes. by repeat split.
      * assert (other_node uri (JDict items)) as Ho by by exists items.
        destruct (IH node Hrest) as [(pre & post & -> & Hn & Hpre)|[-> Hall]].
        -- left. exists (JDict items :: pre), post. repeat split; [done |].
           by constructor.
        -- right. split; [done |]. by constructor.
  - assert (∀ n rest, other_node uri n →
              JSONLDParser.first_node (n :: rest) uri =
              JSONLDParser.first_node rest uri) as Hskip.
    { intros n rest (items & -> & Hid). cbn [JSONLDParser.first_node].
      destruct (Py.dict_get items "@id") as [v|]; [|done].
      destruct (Py.eq_str v uri) eqn:E; [|done].
      apply eq_str_true in E as ->. done. }
    intros [(pre & post & -> & Hn & Hpre)|[-> Hall]].
    + induction Hpre as [|n pre Ho Hpre IH].
      * cbn [app JSONLDParser.first_node]. rewrite Hn.
        by rewrite (proj2 (eq_str_true (JStr uri) uri) eq_refl).
      * cbn [app]. by rewrite Hskip.
    + induction Hall as [|n nodes Ho Hall IH]; [done |]. by rewrite Hskip.
Qed.

(** X8: in a document whose [@graph] is a sequence, [get_node] returns the
    first element of [@graph] whose [@id] is exactly the identifier, when
    the elements before it are mappings; it returns the empty mapping when
    all the elements are mappings with another [@id] or none; in any other
    case it does not return. *)
Theorem get_node_first_match parser items nodes uri node :
  JSONLDParser.data parser = JDict items →
  Py.dict_get items "@graph" = Some (JList nodes) →
  JSONLDParser.get_node parser uri = Ok node ↔
  (∃ pre post, nodes = pre ++ JDict node :: post ∧
               Py.dict_get node "@id" = Some (JStr uri) ∧
               Forall (other_node uri) pre) ∨
  (node = [] ∧ Forall (other_node uri) nodes).
Proof.
  intros Hdata Hgraph. unfold JSONLDParser.get_node. rewrite Hdata.
  cbn [Py.contains Py.getitem]. unfold Py.dict_has. rewrite Hgraph.
  cbn [Py.iter]. apply first_node_spec.
Qed.

Lemma get_node_first_match_witness :
  let parser := JSONLDParser.mk EmptyString [] (pair_doc "ex#a" "ex#b") in
  JSONLDParser.get_node parser "ex#b" = Ok [("@id", JStr "ex#b")] ↔
  (∃ pre post,
      [JDict [("@id", JStr "ex#a")]; JDict [("@id", JStr "ex#b")]] =
      pre ++ JDict [("@id", JStr "ex#b")] :: post ∧
      Py.dict_get [("@id", JStr "ex#b")] "@id" = Some (JStr "ex#b") ∧
      Forall (other_node "ex#b") pre) ∨
  ([("@id", JStr "ex#b")] = [] ∧
   Forall (other_node "ex#b")
     [JDict [("@id", JStr "ex#a")]; JDict [("@id", JStr "ex#b")]]).
Proof.
  intros parser.
  apply (get_node_first_match parser
           [("@graph", JList [JDict [("@id", JStr "ex#a")]; JDict [("@id", JStr "ex#b")]])]);
    reflexivity.
Defined.

(** ** More on the runs of the validator *)

Lemma verdict_Some parser uri identifier e :
  verdict parser uri identifier = Ok (Some e) →
  ∃ node, JSONLDParser.get_node parser uri = Ok node ∧
    ve_identifier e = identifier ∧
    ve_line e = JSONLDParser.get_line_number parser uri ∧
    (ve_message e = message ALPHANUM ∧
     Re.matches (pattern ALPHANUM) identifier = false ∨
     ve_message e = message PASCAL ∧
     Re.matches (pattern ALPHANUM) identifier = true ∧
     Re.matches (pattern PASCAL) identifier = false ∧
     is_concept node = Ok true).
Proof.
  unfold verdict. intros H.
  destruct (JSONLDParser.get_node parser uri) as [node|]; [|done]. exists node.
  destruct (Re.matches (pattern ALPHANUM) identifier) eqn:Ha; cbn [negb] in H.
  - destruct (is_concept node) as [[]|]; [| |done].
    + destruct (Re.matches (pattern PASCAL) identifier) eqn:Hp; [done |].
      injection H as <-. repeat split; try done. by right.
    + done.
  - injection H as <-. repeat split; try done. by left.
Qed.

(** Whatever the outcome, every violation that [check_all] adds is the
    verdict of the rules on one of the pairs. *)
Lemma check_all_origin parser pairs is_valid errors :
  ∃ new, (check_all parser pairs is_valid errors).2 = errors ++ new ∧
         Forall (λ e, ∃ p, p ∈ pairs ∧ verdict parser p.1 p.2 = Ok (Some e)) new.
Proof.
  revert is_valid errors.
  induction pairs as [|[uri identifier] pairs IH]; intros is_valid errors.
  - exists []. by rewrite app_nil_r.
  - cbn [check_all]. unfold Run.bind. rewrite validate_naming_patterns_verdict.
    assert (∀ new, Forall (λ e, ∃ p, p ∈ pairs ∧ verdict parser p.1 p.2 = Ok (Some e)) new →
                   Forall (λ e, ∃ p, p ∈ (uri, identifier) :: pairs ∧
                                     verdict parser p.1 p.2 = Ok (Some e)) new) as Hweak.
    { intros new Hnew. eapply Forall_impl; [exact Hnew |].
      intros e (p & Hp & Hv). exists p.
      split; [|done]. apply elem_of_cons. by right. }
    destruct (verdict parser uri identifier) as [[e|]|] eqn:Hv.
    + destruct (IH false (errors ++ [e])) as (new & Hnew & Hall).
      exists (e :: new). split; [by rewrite Hnew, <- app_assoc |].
      constructor; [|by apply Hweak].
      exists (uri, identifier). split; [apply elem_of_cons; by left | done].
    + destruct (IH is_valid errors) as (new & Hnew & Hall).
      exists new. split; [done | by apply Hweak].
    + exists []. by rewrite app_nil_r.
Qed.

(** X9: every violation that a run records, whatever the outcome of the
    run, is a real one: it bears the local name, not empty, of an identifier
    of the document and the line found for that identifier, and either it
    bears the ALPHANUM message and the name fails ALPHANUM, or it bears the
    PASCAL message, the name passes ALPHANUM and fails PASCAL, and the node
    of the identifier is a concept. The message of CAMEL is never
    recorded. *)
Theorem recorded_violation_is_real parser e :
  e ∈ (_validate_uris parser []).2 →
  ∃ uri node,
    JStr uri ∈ _extract_uris (JSONLDParser.data parser) ∧
    ve_identifier e = _get_identifier uri ∧
    ve_identifier e ≠ EmptyString ∧
    ve_line e = JSONLDParser.get_line_number parser uri ∧
    JSONLDParser.get_node parser uri = Ok node ∧
    (ve_message e = "Must be alphanumeric starting with a letter" ∧
     Re.matches (pattern ALPHANUM) (ve_identifier e) = false ∨
     ve_message e = "Concepts must use PascalCase" ∧
     Re.matches (pattern ALPHANUM) (ve_identifier e) = true ∧
     Re.matches (pattern PASCAL) (ve_identifier e) = false ∧
     is_concept node = Ok true).
Proof.
  rewrite validate_uris_errors.
  destruct (check_all_origin parser
              (evaluated (_extract_uris (JSONLDParser.data parser)) ∅) true [])
    as (new & -> & Hall).
  cbn [app]. intros He. rewrite Forall_forall in Hall.
  destruct (Hall e He) as ([uri name] & Hp & Hv). cbn [fst snd] in Hv.
  pose proof (proj1 (evaluated_names
                       (_extract_uris (JSONLDParser.data parser)) ∅)) as Hnames.
  rewrite Forall_forall in Hnames. destruct (Hnames _ Hp) as (Hne & _ & Hn).
  cbn [fst snd] in Hne, Hn.
  apply verdict_Some in Hv as (node & Hnode & Hid & Hline & Hmsg).
  exists uri, node. rewrite Hid.
  split; [by eapply evaluated_elem |]. by repeat split.
Qed.

Lemma recorded_violation_is_real_witness :
  let parser := parser_of (concept_text "ex#lowerConcept") (concept_doc "ex#lowerConcept") in
  let e := mkValidationError "Concepts must use PascalCase" "lowerConcept" 1 in
  ∃ uri node,
    JStr uri ∈ _extract_uris (JSONLDParser.data parser) ∧
    ve_identifier e = _get_identifier uri ∧
    ve_identifier e ≠ EmptyString ∧
    ve_line e = JSONLDParser.get_line_number parser uri ∧
    JSONLDParser.get_node parser uri = Ok node ∧
    (ve_message e = "Must be alphanumeric starting with a letter" ∧
     Re.matches (pattern ALPHANUM) (ve_identifier e) = false ∨
     ve_message e = "Concepts must use PascalCase" ∧
     Re.matches (pattern ALPHANUM) (ve_identifier e) = true ∧
     Re.matches (pattern PASCAL) (ve_identifier e) = false ∧
     is_concept node = Ok true).
Proof.
  intros parser e. apply (recorded_violation_is_real parser e).
  apply list_elem_of_In. vm_compute. by left.
Defined.

Lemma pascal_is_alphanum (s : string) :
  Re.matches (pattern PASCAL) s = true → Re.matches (pattern ALPHANUM) s = true.
Proof.
  cbn [pattern]. rewrite !matches_prefixed_name.
  destruct (PyStr.strip_prefix "dfc-m:" s) as [rest|];
    rewrite !name_body_letter; intros H.
  - apply orb_true_iff in H as [H|H]; rewrite H; by rewrite ?orb_true_r.
  - by rewrite H.
Qed.

Lemma violations_nil parser pairs :
  Forall (λ p, verdict parser p.1 p.2 = Ok None) pairs → violations parser pairs = [].
Proof.
  induction 1 as [|p pairs Hp _ IH]; [done |].
  unfold violations in *. cbn [flat_map]. by rewrite Hp, IH.
Qed.

(** X10: in a run that returns, when every local name of the document that
    is not empty matches PASCAL, the document is valid and no violation is
    recorded, whatever the types of the nodes. *)
Theorem pascal_names_pass parser r es :
  _validate_uris parser [] = (Ok r, es) →
  (∀ uri, JStr uri ∈ _extract_uris (JSONLDParser.data parser) →
          _get_identifier uri = EmptyString ∨
          Re.matches (pattern PASCAL) (_get_identifier uri) = true) →
  r = true ∧ es = [].
Proof.
  intros Hrun Hall.
  apply validate_uris_Ok in Hrun as (_ & -> & -> & Hok). cbn [app].
  assert (violations parser
            (evaluated (_extract_uris (JSONLDParser.data parser)) ∅) = []) as ->;
    [|done].
  apply violations_nil. rewrite Forall_forall in Hok. apply Forall_forall.
  intros [uri name] Hp. destruct (Hok _ Hp) as [v Hv]. cbn [fst snd] in *.
  destruct v as [e|]; [|done]. exfalso.
  pose proof (proj1 (evaluated_names
                       (_extract_uris (JSONLDParser.data parser)) ∅)) as Hnames.
  rewrite Forall_forall in Hnames. destruct (Hnames _ Hp) as (Hne & _ & Hn).
  cbn [fst snd] in Hne, Hn. subst name.
  destruct (Hall uri (evaluated_elem _ _ _ _ Hp)) as [E|Hpascal]; [done |].
  apply verdict_Some in Hv as (_ & _ & _ & _ & [[_ Ha]|(_ & _ & Hf & _)]).
  - by rewrite (pascal_is_alphanum _ Hpascal) in Ha.
  - by rewrite Hpascal in Hf.
Qed.

Lemma pascal_names_pass_witness :
  true = true ∧ @nil ValidationError = [].
Proof.
  apply (pascal_names_pass
           (parser_of (concept_text "ex#PascalConcept") (concept_doc "ex#PascalConcept"))
           true []).
  - reflexivity.
  - intros uri Hin. right. apply list_elem_of_In in Hin. vm_compute in Hin.
    destruct Hin as [[= <-]|[]]. reflexivity.
Defined.

(** Without a [@graph] key in the document, the rules find no node and
    never raise: only ALPHANUM decides. *)
Lemma verdict_without_graph parser items uri identifier :
  JSONLDParser.data parser = JDict items →
  Py.dict_get items "@graph" = None →
  verdict parser uri identifier =
  Ok (if Re.matches (pattern ALPHANUM) identifier then None
      else Some (mkValidationError (message ALPHANUM) identifier
                   (JSONLDParser.get_line_number parser uri))).
Proof.
  intros Hdata Hgraph. unfold verdict, JSONLDParser.get_node.
  rewrite Hdata. cbn [Py.contains]. unfold Py.dict_has. rewrite Hgraph.
  by destruct (Re.matches (pattern ALPHANUM) identifier).
Qed.

(** X11: on a document that is a mapping without a [@graph] key, all of
    whose [@id] values are strings, the run returns, and the document is
    valid exactly when every local name that is not empty matches ALPHANUM:
    the rule of the concepts never applies. *)
Theorem without_graph_only_alphanum parser items :
  JSONLDParser.data parser = JDict items →
  Py.dict_get items "@graph" = None →
  ids_are_strings (JDict items) = true →
  ∃ r es, _validate_uris parser [] = (Ok r, es) ∧
    (r = true ↔
     ∀ uri, JStr uri ∈ _extract_uris (JDict items) →
            _get_identifier uri = EmptyString ∨
            Re.matches (pattern ALPHANUM) (_get_identifier uri) = true).
Proof.
  intros Hdata Hgraph Hids.
  destruct (check_all_total parser (evaluated (_extract_uris (JDict items)) ∅) true [])
    as (r & es & Hc).
  { apply Forall_forall. intros [uri name] _. cbn [fst snd].
    rewrite (verdict_without_graph _ _ _ _ Hdata Hgraph). by eexists. }
  assert (_validate_uris parser [] = (Ok r, es)) as Hrun.
  { unfold _validate_uris. rewrite loop_check_all, Hdata, Hc.
    unfold ids_are_strings in Hids. by rewrite Hids. }
  exists r, es. split; [done |].
  apply validate_uris_Ok in Hrun as (_ & _ & -> & _). rewrite Hdata.
  rewrite bool_decide_eq_true. split.
  - intros Hnil uri Hin.
    destruct (String.eqb_spec (_get_identifier uri) EmptyString) as [|Hne]; [by left |].
    right.
    destruct (evaluated_complete (_extract_uris (JDict items)) ∅ uri Hids Hin Hne)
      as [first Hf]; [set_solver |].
    destruct (Re.matches (pattern ALPHANUM) (_get_identifier uri)) eqn:Ha; [done |].
    exfalso. unfold violations in Hnil.
    assert (In (mkValidationError (message ALPHANUM) (_get_identifier uri)
                  (JSONLDParser.get_line_number parser first))
              (@nil ValidationError)) as []. 
    rewrite <- Hnil. apply in_flat_map. exists (first, _get_identifier uri).
    split; [by apply list_elem_of_In |]. cbn [fst snd].
    rewrite (verdict_without_graph _ _ _ _ Hdata Hgraph), Ha. by left.
  - intros Hall. apply violations_nil, Forall_forall. intros [uri name] Hp.
    cbn [fst snd]. rewrite (verdict_without_graph _ _ _ _ Hdata Hgraph).
    pose proof (proj1 (evaluated_names (_extract_uris (JDict items)) ∅)) as Hnames.
    rewrite Forall_forall in Hnames. destruct (Hnames _ Hp) as (Hne & _ & Hn).
    cbn [fst snd] in Hne, Hn. subst name.
    destruct (Hall uri (evaluated_elem _ _ _ _ Hp)) as [E| ->]; done.
Qed.

Lemma without_graph_only_alphanum_witness :
  let doc := JDict [("@id", JStr "ex#top"); ("items", JList [JDict [("@id", JStr "ex#in_valid")]])] in
  ∃ r es, _validate_uris (JSONLDParser.mk EmptyString [] doc) [] = (Ok r, es) ∧
    (r = true ↔
     ∀ uri, JStr uri ∈ _extract_uris doc →
            _get_identifier uri = EmptyString ∨
            Re.matches (pattern ALPHANUM) (_get_identifier uri) = true).
Proof.
  intros doc.
  apply (without_graph_only_alphanum (JSONLDParser.mk EmptyString [] doc)
           [("@id", JStr "ex#top"); ("items", JList [JDict [("@id", JStr "ex#in_valid")]])]);
    reflexivity.
Defined.

Lemma evaluated_sublist uris seen :
  sublist (map snd (evaluated uris seen)) (local_names uris).
Proof.
  revert seen. induction uris as [|v uris IH]; intros seen; [done |].
  destruct v; try apply sublist_nil_l.
  cbn [evaluated]. unfold local_names. cbn [flat_map app].
  destruct (String.eqb _ _ || bool_decide _).
  - apply sublist_cons, IH.
  - cbn [map snd]. apply sublist_skip, IH.
Qed.

(** X12: whatever the outcome of a run, the local names of the violations
    it records come in the order of the traversal: they are a subsequence
    of the local names of the identifiers of the document; so there are no
    more violations than identifiers. *)
Theorem violations_follow_traversal parser :
  let es := (_validate_uris parser []).2 in
  sublist (map ve_identifier es)
    (local_names (_extract_uris (JSONLDParser.data parser))) ∧
  length es ≤ length (_extract_uris (JSONLDParser.data parser)).
Proof.
  intros es. subst es. rewrite validate_uris_errors.
  destruct (check_all_names parser
              (evaluated (_extract_uris (JSONLDParser.data parser)) ∅) true [])
    as (new & -> & Hsub).
  cbn [app].
  assert (sublist (map ve_identifier new)
            (local_names (_extract_uris (JSONLDParser.data parser)))) as Hall.
  { etrans; [exact Hsub | apply evaluated_sublist]. }
  split; [done |]. apply sublist_length in Hall.
  rewrite length_map in Hall. etrans; [exact Hall |].
  unfold local_names. generalize (_extract_uris (JSONLDParser.data parser)).
  induction l as [|v l IH]; [done |]. cbn [flat_map]. rewrite length_app.
  destruct v; cbn; lia.
Qed.

(** X13: when some [@id] value of the document is not a string, no run
    returns: the validator raises, on that value or before it. *)
Theorem non_string_id_raises parser errors :
  ids_are_strings (JSONLDParser.data parser) = false →
  ∃ e es, _validate_uris parser errors = (Raise e, es).
Proof.
  intros Hids. unfold _validate_uris. rewrite loop_check_all.
  unfold ids_are_strings in Hids. rewrite Hids.
  destruct (check_all _ _ _ _) as [[r|e] es]; by eexists _, _.
Qed.

Lemma non_string_id_raises_witness :
  ∃ e es, _validate_uris (parser_of number_id_text number_id_doc) [] = (Raise e, es).
Proof. apply non_string_id_raises. reflexivity. Defined.

(** ** More on the discovery of identifiers *)

(** Induction on a value, through the sequences and the mappings. *)
Lemma json_nested_ind (P : json → Prop) :
  P JNull → (∀ b, P (JBool b)) → (∀ n, P (JInt n)) → (∀ f, P (JFloat f)) →
  (∀ s, P (JStr s)) →
  (∀ l, Forall P l → P (JList l)) →
  (∀ items, Forall (λ kv, P kv.2) items → P (JDict items)) →
  ∀ v, P v.
Proof.
  intros HNull HBool HInt HFloat HStr HList HDict.
  fix IH 1. intros [|b|n|f|s|l|items].
  - exact HNull.
  - apply HBool.
  - apply HInt.
  - apply HFloat.
  - apply HStr.
  - apply HList. induction l as [|x l IHl]; constructor; [apply IH | exact IHl].
  - apply HDict. induction items as [|[k v] items IHitems]; constructor;
      [apply IH | exact IHitems].
Qed.

(** The identifiers of a mapping: its own, then those of its values that
    are mappings or sequences, in order. *)
Lemma extract_uris_dict (items : list (string * json)) :
  _extract_uris (JDict items) =
  match Py.dict_get items "@id" with Some v => [v] | None => [] end ++
  flat_map (λ kv, match kv.2 with
                  | JDict _ | JList _ => _extract_uris kv.2
                  | _ => []
                  end) items.
Proof.
  cbn [_extract_uris]. f_equal.
  induction items as [|[k v] items IH]; [done |].
  cbn [flat_map snd]. by rewrite <- IH.
Qed.

(** The identifiers of a sequence: those of its items, in order. *)
Lemma extract_uris_list (l : list json) :
  _extract_uris (JList l) = flat_map _extract_uris l.
Proof.
  cbn [_extract_uris].
  induction l as [|x l IH]; [done |]. cbn [flat_map]. by rewrite <- IH.
Qed.

(** X14: [_extract_uris] finds exactly the [@id] values of the mappings of
    the document, at any depth: the document itself, and the mappings found
    in the values of a mapping or in the items of a sequence. *)
Theorem extract_uris_spec (data v : json) :
  v ∈ _extract_uris data ↔
  ∃ m, mapping_in data m ∧ Py.dict_get m "@id" = Some v.
Proof.
  split.
  - revert data. apply (json_nested_ind
      (λ data, v ∈ _extract_uris data →
               ∃ m, mapping_in data m ∧ Py.dict_get m "@id" = Some v));
      try (intros; exfalso; by eapply elem_of_nil).
    + intros l IH. rewrite extract_uris_list. intros Hin.
      apply list_elem_of_In, in_flat_map in Hin as (x & Hx & Hin).
      apply list_elem_of_In in Hx, Hin. rewrite Forall_forall in IH.
      destruct (IH x Hx Hin) as (m & Hm & Hid).
      exists m. split; [by eapply mapping_item | done].
    + intros items IH. rewrite extract_uris_dict. intros Hin.
      apply elem_of_app in Hin as [Hin|Hin].
      * exists items. split; [constructor |].
        destruct (Py.dict_get items "@id") as [w|]; [|by apply elem_of_nil in Hin].
        apply elem_of_cons in Hin as [->|Hin]; [done | by apply elem_of_nil in Hin].
      * apply list_elem_of_In, in_flat_map in Hin as ([k x] & Hx & Hin).
        apply list_elem_of_In in Hx. cbn [snd] in Hin.
        rewrite Forall_forall in IH.
        assert (v ∈ _extract_uris x) as Hin'.
        { apply list_elem_of_In. by destruct x. }
        destruct (IH (k, x) Hx Hin') as (m & Hm & Hid).
        exists m. split; [by eapply mapping_value | done].
  - intros (m & Hm & Hid). induction Hm as [items|items k x m Hx Hm IH|l x m Hx Hm IH].
    + rewrite extract_uris_dict, Hid. apply elem_of_app. left.
      apply elem_of_cons. by left.
    + rewrite extract_uris_dict. apply elem_of_app. right.
      apply list_elem_of_In, in_flat_map. exists (k, x).
      split; [by apply list_elem_of_In |]. cbn [snd].
      specialize (IH Hid). apply list_elem_of_In in IH.
      destruct x; try done; by inversion Hm.
    + rewrite extract_uris_list.
      apply list_elem_of_In, in_flat_map. exists x.
      split; apply list_elem_of_In; [done | by apply IH].
Qed.

(** ** The report of [main] *)

(** What [validate] returns agrees with what it records: [True] with no
    error, [False] with at least one. *)
Lemma validate_result_errors json_loads content r es :
  validate json_loads content [] = (Ok r, es) → (r = true ↔ es = []).
Proof.
  unfold validate, new_parser.
  destruct (json_loads content) as [e|data].
  - intros [= <- <-]. done.
  - intros H. apply validate_uris_Ok in H as (_ & -> & -> & _). cbn [app].
    by rewrite bool_decide_eq_true.
Qed.

(** X15: when [main] ends by [sys.exit], the status is 0 or 1. With status
    0 it printed the PASS line only, and the validator recorded no error.
    With status 1 it printed the usage line, the number of arguments being
    wrong, or the FAIL line followed by one line for each recorded error, in
    order, and there is at least one: a FAIL report is never empty. *)
Theorem main_report json_loads read_file path_name argv out status :
  main json_loads read_file path_name argv = (out, Exit status) →
  (status = 0 ∧
   ∃ script file content,
     argv = [script; file] ∧ read_file file = Some content ∧
     validate json_loads content [] = (Ok true, []) ∧
     out = [pass_line (path_name file)]) ∨
  (status = 1 ∧ length argv ≠ 2 ∧ out = [usage_line]) ∨
  (status = 1 ∧
   ∃ script file content errors,
     argv = [script; file] ∧ read_file file = Some content ∧
     validate json_loads content [] = (Ok false, errors) ∧
     errors ≠ [] ∧
     out = fail_line (length errors) (path_name file) :: map format_error errors).
Proof.
  unfold main. intros H.
  destruct argv as [|script [|file [|extra argv]]];
    try (injection H as <- <-; right; left; by repeat split).
  destruct (read_file file) as [content|] eqn:Hread; [|done].
  destruct (validate json_loads content []) as [[r|e] es] eqn:Hv; [|done].
  pose proof (validate_result_errors _ _ _ _ Hv) as Hres.
  destruct r; injection H as <- <-.
  - left. split; [done |]. exists script, file, content.
    by rewrite (proj1 Hres eq_refl) in Hv.
  - right; right. split; [done |]. exists script, file, content, es.
    repeat split; try done. intros E. by apply Hres in E.
Qed.

Lemma main_report_witness :
  let json_loads := loads_of (untyped_text "ex#Invalid_Name") (untyped_doc "ex#Invalid_Name") in
  let read_file := λ _ : string, Some (untyped_text "ex#Invalid_Name") in
  let path_name := λ _ : string, "taxonomy.json" in
  let errors := [mkValidationError "Must be alphanumeric starting with a letter"
                   "Invalid_Name" 1] in
  (1 = 0 ∧
   ∃ script file content,
     ["validate_taxonomy.py"; "taxonomy.json"] = [script; file] ∧
     read_file file = Some content ∧
     validate json_loads content [] = (Ok true, []) ∧
     fail_line 1 "taxonomy.json" :: map format_error errors = [pass_line (path_name file)]) ∨
  (1 = 1 ∧ length ["validate_taxonomy.py"; "taxonomy.json"] ≠ 2 ∧
   fail_line 1 "taxonomy.json" :: map format_error errors = [usage_line]) ∨
  (1 = 1 ∧
   ∃ script file content errors',
     ["validate_taxonomy.py"; "taxonomy.json"] = [script; file] ∧
     read_file file = Some content ∧
     validate json_loads content [] = (Ok false, errors') ∧
     errors' ≠ [] ∧
     fail_line 1 "taxonomy.json" :: map format_error errors =
     fail_line (length errors') (path_name file) :: map format_error errors').
Proof.
  intros json_loads read_file path_name errors.
  apply (main_report json_loads read_file path_name
           ["validate_taxonomy.py"; "taxonomy.json"]).
  reflexivity.
Defined.

(** X16: the line printed for an error recorded on a text that is not JSON
    names no identifier; the line printed for an error recorded on a text
    that is JSON always ends with the local name of the violation, between
    quotes. *)
Theorem report_names_the_identifier json_loads content e :
  e ∈ (validate json_loads content []).2 →
  format_error e =
  "    [L" +:+ pretty (ve_line e) +:+ "]" +:+ String tab (ve_message e) +:+
  match json_loads content with
  | inl _ => EmptyString
  | inr _ => " (in '" +:+ ve_identifier e +:+ "')"
  end.
Proof.
  unfold validate, new_parser. destruct (json_loads content) as [err|data].
  - cbn. intros H. apply elem_of_cons in H as [->|H]; [|by apply elem_of_nil in H].
    unfold format_error. cbn. by rewrite !append_nil_r.
  - rewrite validate_uris_errors. cbn [JSONLDParser.data].
    destruct (check_all_names
                (JSONLDParser.mk content (JSONLDParser._map_ids_to_lines content) data)
                (evaluated (_extract_uris data) ∅) true []) as (new & -> & Hsub).
    cbn [app]. intros He.
    assert (ve_identifier e ≠ EmptyString) as Hne.
    { assert (ve_identifier e ∈ map snd (evaluated (_extract_uris data) ∅)) as Hin.
      { apply (sublist_subseteq _ _ Hsub). apply list_elem_of_fmap. by exists e. }
      apply list_elem_of_fmap in Hin as (p & -> & Hp).
      pose proof (proj1 (evaluated_names (_extract_uris data) ∅)) as Hnames.
      rewrite Forall_forall in Hnames. by destruct (Hnames _ Hp) as (? & _). }
    unfold format_error.
    destruct (String.eqb_spec (ve_identifier e) EmptyString); [done |].
    by rewrite !append_assoc.
Qed.

Lemma report_names_the_identifier_witness :
  let e := mkValidationError "Must be alphanumeric starting with a letter"
             "Invalid_Name" 1 in
  format_error e =
  "    [L" +:+ pretty (ve_line e) +:+ "]" +:+ String tab (ve_message e) +:+
  " (in '" +:+ ve_identifier e +:+ "')".
Proof.
  intros e.
  apply (report_names_the_identifier
           (loads_of (untyped_text "ex#Invalid_Name") (untyped_doc "ex#Invalid_Name"))
           (untyped_text "ex#Invalid_Name") e).
  apply list_elem_of_In. vm_compute. by left.
Defined.

(** ** Identifiers that are not nodes of the graph *)

(** X17: an identifier that is the [@id] of no element of [@graph], all of
    them mappings, is subject to ALPHANUM only: the rule of the concepts
    applies to the nodes of the top-level graph and to nothing else. *)
Theorem undeclared_identifier_only_alphanum parser items nodes uri identifier errors :
  JSONLDParser.data parser = JDict items →
  Py.dict_get items "@graph" = Some (JList nodes) →
  Forall (other_node uri) nodes →
  _validate_naming_patterns parser uri identifier errors =
  if Re.matches (pattern ALPHANUM) identifier then (Ok true, errors)
  else (Ok false,
        errors ++ [mkValidationError "Must be alphanumeric starting with a letter"
                     identifier (JSONLDParser.get_line_number parser uri)]).
Proof.
  intros Hdata Hgraph Hother.
  assert (JSONLDParser.get_node parser uri = Ok []) as Hnode.
  { unfold JSONLDParser.get_node. rewrite Hdata.
    cbn [Py.contains Py.getitem]. unfold Py.dict_has. rewrite Hgraph.
    cbn [Py.iter]. apply first_node_spec. by right. }
  rewrite validate_naming_patterns_verdict. unfold verdict. rewrite Hnode.
  by destruct (Re.matches (pattern ALPHANUM) identifier).
Qed.

Lemma undeclared_identifier_only_alphanum_witness :
  let doc :=
    JDict [("@graph",
            JList [JDict [("@id", JStr "ex#Thing");
                          ("@type", JList [JStr "skos:Concept"]);
                          ("broader", JDict [("@id", JStr "ex#lowerParent")])]])] in
  _validate_naming_patterns (JSONLDParser.mk EmptyString [] doc)
    "ex#lowerParent" "lowerParent" [] = (Ok true, []).
Proof.
  intros doc.
  apply (undeclared_identifier_only_alphanum (JSONLDParser.mk EmptyString [] doc)
           [("@graph",
             JList [JDict [("@id", JStr "ex#Thing");
                           ("@type", JList [JStr "skos:Concept"]);
                           ("broader", JDict [("@id", JStr "ex#lowerParent")])]])]
           [JDict [("@id", JStr "ex#Thing");
                   ("@type", JList [JStr "skos:Concept"]);
                   ("broader", JDict [("@id", JStr "ex#lowerParent")])]]
           "ex#lowerParent" "lowerParent" []).
  - reflexivity.
  - reflexivity.
  - constructor; [|constructor]. eexists. split; [reflexivity |]. discriminate.
Defined.
